(** * liburing4cpp demo file server (demo/file_server.cpp)

    A shallow embedding of the static-file HTTP server of the demo
    directory: the request parser of [serve], the responder and the
    windowed body transfer of [http_send_file], and the per-connection
    handler spawned by [accept_connection].

    The asynchronous I/O service ([io_service.hpp], [when.hpp]), the
    content-type table ([mime_dicts.hpp]) and the kernel are not part of
    the translated sources.  They appear here as an explicit environment:
    the results of completions, the file system answers and the table are
    parameters of every definition, and every theorem holds for all of
    them.  A coroutine is a function from the handler state to an outcome,
    a new state and the list of events it produced, in program order.

    Not modelled: [main] (socket set-up and the event loop) and the
    interleaving of the handlers of different connections. *)

From Stdlib Require Import ZArith List String Ascii Bool Lia Arith.
From Stdlib Require Import DecimalString DecimalPos DecimalZ.
From Equations Require Import Equations.
Import ListNotations.

Local Open Scope string_scope.
Local Open Scope Z_scope.

(** ** Constants *)

(** [enum { SERVER_PORT = 8080, BUF_SIZE = 1024 }] *)
Definition SERVER_PORT : Z := 8080.
Definition BUF_SIZE : Z := 1024.

(** Values of the system headers the source includes (Linux). *)
Definition O_RDONLY : Z := 0.
Definition MSG_NOSIGNAL : Z := 16384.
Definition MSG_MORE : Z := 32768.
Definition IOSQE_IO_LINK : Z := Z.shiftl 1 2.
Definition S_IFMT : Z := 61440.
Definition S_IFREG : Z := 32768.

Definition S_ISREG (mode : Z) : bool := Z.land mode S_IFMT =? S_IFREG.

Definition CR : ascii := ascii_of_nat 13.
Definition LF : ascii := ascii_of_nat 10.
Definition NUL : ascii := ascii_of_nat 0.
Definition CRLF : string := String CR (String LF EmptyString).
Definition NL : string := String LF EmptyString.

(** [http_404_hdr] and [http_400_hdr] *)
Definition http_404_hdr : string :=
  "HTTP/1.1 404 Not Found" ++ CRLF ++ "Content-Length: 0" ++ CRLF ++ CRLF.
Definition http_400_hdr : string :=
  "HTTP/1.1 400 Bad Request" ++ CRLF ++ "Content-Length: 0" ++ CRLF ++ CRLF.

(** ** [std::string_view] operations, with [size_t] arithmetic written out *)

Definition size_t_mod : Z := 2 ^ 64.
Definition to_size_t (z : Z) : Z := z mod size_t_mod.
Definition npos : Z := size_t_mod - 1.

Definition size (s : string) : Z := Z.of_nat (String.length s).

(** Exceptions the translated code can raise or let through. *)
Inductive exn : Type :=
| out_of_range
| io_failure (res : Z).

Inductive outcome (A : Type) : Type :=
| Done (a : A)
| Thrown (e : exn).
Arguments Done {A} a.
Arguments Thrown {A} e.

(** [sv.substr(pos, count)]: throws when [pos > size()], otherwise the
    characters [pos, pos + min(count, size() - pos)). *)
Definition substr (s : string) (pos count : Z) : outcome string :=
  if size s <? pos then Thrown out_of_range
  else Done (substring (Z.to_nat pos) (Z.to_nat (Z.min count (size s - pos))) s).

(** [sv.find(c, pos)]: index of the first [c] at or after [pos], or [npos]. *)
Fixpoint find_from (c : ascii) (s : string) (skip : nat) (idx : Z) : Z :=
  match s with
  | EmptyString => npos
  | String a s' =>
      match skip with
      | O => if Ascii.eqb a c then idx else find_from c s' O (idx + 1)
      | S k => find_from c s' k (idx + 1)
      end
  end.

Definition find (s : string) (c : ascii) (pos : Z) : Z :=
  find_from c s (Z.to_nat pos) 0.

(** [sv.find_last_of(c)]: index of the last [c], or [npos]. *)
Fixpoint find_last_from (c : ascii) (s : string) (idx last : Z) : Z :=
  match s with
  | EmptyString => last
  | String a s' =>
      find_last_from c s' (idx + 1) (if Ascii.eqb a c then idx else last)
  end.

Definition find_last_of (s : string) (c : ascii) : Z :=
  find_last_from c s 0 npos.

(** [sv.compare(pos1, count1, t) == 0]: [substr(pos1, count1)] equals [t]. *)
Definition compare_eq (s : string) (pos1 count1 : Z) (t : string) : outcome bool :=
  match substr s pos1 count1 with
  | Done v => Done (String.eqb v t)
  | Thrown e => Thrown e
  end.

(** [s.c_str()] as a C function reads it: the bytes before the first NUL. *)
Fixpoint c_str (s : string) : string :=
  match s with
  | EmptyString => EmptyString
  | String c s' => if Ascii.eqb c NUL then EmptyString else String c (c_str s')
  end.

(** [fmt::format("{}", n)] for a signed integer: its decimal digits. *)
Definition fmt_int (n : Z) : string := NilZero.string_of_int (Z.to_int n).

(** ** Submission entries, events and the environment *)

(** What an [iovec] points to: bytes owned by the caller ([to_iov] of a
    string), the receive array of [serve], or the one [filebuf] array of
    [http_send_file]. *)
Inductive buffer : Type :=
| Bytes (s : string)
| RecvBuf
| FileBuf.

Record iovec : Type := { iov_base : buffer; iov_len : Z }.

Definition to_iov (s : string) : iovec :=
  {| iov_base := Bytes s; iov_len := size s |}.
Definition to_iov_array (b : buffer) : iovec :=
  {| iov_base := b; iov_len := BUF_SIZE |}.
Definition set_iov_len (iov : iovec) (len : Z) : iovec :=
  {| iov_base := iov_base iov; iov_len := len |}.

(** The operations the server hands to the I/O service. *)
Inductive sqe : Type :=
| Recvmsg (fd : Z) (iov : iovec) (flags : Z)
| Sendmsg (fd : Z) (iov : iovec) (flags : Z) (iflags : Z)
| Readv (fd : Z) (iov : iovec) (offset : Z)
| Delay (sec : Z).

Definition sqe_iflags (e : sqe) : Z :=
  match e with
  | Sendmsg _ _ _ iflags => iflags
  | _ => 0
  end.

Definition linked (e : sqe) : bool := negb (Z.land (sqe_iflags e) IOSQE_IO_LINK =? 0).

(** Observable steps of one handler, in program order. *)
Inductive event : Type :=
| Print (msg : string)
| Openat (path : string) (flags : Z) (ret : Z)
| Close (fd : Z)
| Submit (id : nat) (e : sqe)
| Complete (id : nat) (res : Z).

Record stat : Type := { st_mode : Z; st_size : Z }.

(** Everything the handler does not decide itself.  [recv_res] is the
    result of the one receive of [serve], a byte count or a negative
    error, and [received] the bytes found from [buffer.data()] on when
    that receive has completed: after a receive of [n] bytes its first
    [n] bytes are what the peer sent.  [serve] looks at [size_t(res)] of
    them whatever the sign of the result, so after a failed receive it
    looks at as many as there are.  [cqe_res] gives the results of all
    other operations, by submission number. *)
Record environment : Type := {
  openat : string -> Z -> Z;
  fstat : Z -> option stat;
  MimeDicts : string -> option string;
  received : string;
  recv_res : Z;
  cqe_res : nat -> Z;
  race : nat -> bool;
  what : exn -> string;
  time_used : Z
}.

(** ** Coroutines as state passing with an event log *)

Record state : Type := { sq_tail : nat; runningCoroutines : Z }.

Definition task (A : Type) : Type := state -> outcome A * state * list event.

Definition ret {A} (a : A) : task A := fun s => (Done a, s, []).

Definition bind {A B} (m : task A) (k : A -> task B) : task B :=
  fun s =>
    match m s with
    | (Done a, s1, t1) =>
        match k a s1 with
        | (o, s2, t2) => (o, s2, (t1 ++ t2)%list)
        end
    | (Thrown e, s1, t1) => (Thrown e, s1, t1)
    end.

Notation "x <- m ;; k" := (bind m (fun x => k))
  (at level 61, m at next level, right associativity).
Notation "m ;; k" := (bind m (fun _ => k))
  (at level 61, right associativity).

Definition lift {A} (o : outcome A) : task A := fun s => (o, s, []).

Definition emit (e : event) : task unit := fun s => (Done tt, s, [e]).

Definition print (msg : string) : task unit := emit (Print msg).

(** [try { body } catch (std::exception& e) { handler(e) }] *)
Definition try_catch (body : task unit) (handler : exn -> task unit) : task unit :=
  fun s =>
    match body s with
    | (Done a, s1, t1) => (Done a, s1, t1)
    | (Thrown e, s1, t1) =>
        match handler e s1 with
        | (o, s2, t2) => (o, s2, (t1 ++ t2)%list)
        end
    end.

(** [on_scope_exit guard(f)] declared before [body]: [f] runs when the
    scope is left, by return or by an exception passing through. *)
Definition on_scope_exit {A} (cleanup : event) (body : task A) : task A :=
  fun s =>
    match body s with
    | (o, s1, t1) => (o, s1, (t1 ++ [cleanup])%list)
    end.

Definition get_runningCoroutines : task Z :=
  fun s => (Done (runningCoroutines s), s, []).

Definition add_runningCoroutines (d : Z) : task unit :=
  fun s => (Done tt,
            {| sq_tail := sq_tail s; runningCoroutines := runningCoroutines s + d |},
            []).

Section Server.

Variable env : environment.

(** The result the service reports for submission [id]. *)
Definition completion (id : nat) (e : sqe) : Z :=
  match e with
  | Recvmsg _ _ _ => recv_res env
  | _ => cqe_res env id
  end.

(** [co_await service.op(...)]: the operation is submitted and the
    coroutine resumes with its result once it has completed. *)
Definition co_await (e : sqe) : task Z :=
  fun s =>
    let id := sq_tail s in
    let res := completion id e in
    (Done res,
     {| sq_tail := S id; runningCoroutines := runningCoroutines s |},
     [Submit id e; Complete id res]).

(** Modelled from the spec: the all-complete combinator of [when.hpp] and
    the link flag of the service, which are not among the translated
    sources.  Both members are submitted together; the caller resumes
    only when both have completed; a member carrying the link flag is
    not dispatched before its predecessor has completed; the first
    failure, if any, is raised. *)
Definition when_all (a b : sqe) : task (Z * Z) :=
  fun s =>
    let id := sq_tail s in
    let ra := completion id a in
    let rb := completion (S id) b in
    let in_order := linked b || negb (race env id) in
    let done := if in_order
                then [Complete id ra; Complete (S id) rb]
                else [Complete (S id) rb; Complete id ra] in
    let first := if in_order then (ra, rb) else (rb, ra) in
    let s' := {| sq_tail := S (S id); runningCoroutines := runningCoroutines s |} in
    let t := (Submit id a :: Submit (S id) b :: done) in
    if fst first <? 0 then (Thrown (io_failure (fst first)), s', t)
    else if snd first <? 0 then (Thrown (io_failure (snd first)), s', t)
    else (Done (ra, rb), s', t).

(** The [contentType] lambda of [http_send_file]. *)
Definition contentType (filename : string) : outcome string :=
  match substr filename (to_size_t (find_last_of filename "." + 1)) npos with
  | Done extension =>
      match MimeDicts env extension with
      | None => Done "application/octet-stream"
      | Some mime => Done mime
      end
  | Thrown e => Thrown e
  end.

Definition http_200_hdr (mime : string) (length : Z) : string :=
  "HTTP/1.1 200 OK" ++ CRLF ++ "Content-type: " ++ mime ++ CRLF
  ++ "Content-Length: " ++ fmt_int length ++ CRLF ++ CRLF.

(** The [for] loop of [http_send_file]; it returns the final [offset]. *)
Equations? send_windows (infd clientfd st_size offset : Z) : task Z
  by wf (Z.to_nat (st_size - offset)) lt :=
send_windows infd clientfd st_size offset with Z_lt_dec BUF_SIZE (st_size - offset) := {
  | left _ =>
      when_all (Readv infd (to_iov_array FileBuf) offset)
               (Sendmsg clientfd (to_iov_array FileBuf)
                        (Z.lor MSG_NOSIGNAL MSG_MORE) IOSQE_IO_LINK) ;;
      co_await (Delay 1) ;;
      send_windows infd clientfd st_size (offset + BUF_SIZE)
  | right _ => ret offset }.
Proof. unfold BUF_SIZE in *. lia. Qed.

(** The not-found branch of [http_send_file]. *)
Definition send_not_found (filename : string) (clientfd : Z) : task unit :=
  print (filename ++ ": file not found!" ++ NL) ;;
  co_await (Sendmsg clientfd (to_iov http_404_hdr) MSG_NOSIGNAL 0) ;;
  ret tt.

(** The body transfer of [http_send_file]: the loop over the full
    windows, then the window for what is left. *)
Definition send_body (infd clientfd st_size : Z) : task unit :=
  offset <- send_windows infd clientfd st_size 0 ;;
  if offset <? st_size then
    let iov := set_iov_len (to_iov_array FileBuf) (to_size_t (st_size - offset)) in
    when_all (Readv infd iov offset)
             (Sendmsg clientfd iov MSG_NOSIGNAL IOSQE_IO_LINK) ;;
    ret tt
  else ret tt.

Definition http_send_file (filename : string) (clientfd : Z) : task unit :=
  let filename := if String.eqb filename "./" then "./index.html" else filename in
  let infd := openat env (c_str filename) O_RDONLY in
  emit (Openat (c_str filename) O_RDONLY infd) ;;
  on_scope_exit (Close infd)
    (match (if infd <? 0 then None else fstat env infd) with
     | Some st =>
         if S_ISREG (st_mode st) then
           mime <- lift (contentType filename) ;;
           co_await (Sendmsg clientfd (to_iov (http_200_hdr mime (st_size st)))
                             (Z.lor MSG_NOSIGNAL MSG_MORE) 0) ;;
           send_body infd clientfd (st_size st)
         else send_not_found filename clientfd
     | None => send_not_found filename clientfd
     end).

(** The path [serve] extracts from a request that starts with [GET]. *)
Definition request_file (buf_view : string) : outcome string :=
  match substr buf_view 4 (to_size_t (find buf_view " " 4 - 4)) with
  | Done path => Done ("." ++ path)
  | Thrown e => Thrown e
  end.

Definition serve (clientfd : Z) : task unit :=
  running <- get_runningCoroutines ;;
  print ("Serving connection, sockfd " ++ fmt_int clientfd
         ++ "; number of running coroutines: " ++ fmt_int running ++ NL) ;;
  res <- co_await (Recvmsg clientfd (to_iov_array RecvBuf) MSG_NOSIGNAL) ;;
  let buf_view := substring 0 (Z.to_nat (to_size_t res)) (received env) in
  is_get <- lift (compare_eq buf_view 0 3 "GET") ;;
  if (is_get : bool) then
    file <- lift (request_file buf_view) ;;
    print ("received request " ++ file ++ " with sockfd " ++ fmt_int clientfd ++ NL) ;;
    http_send_file file clientfd
  else
    print ("unsupported request: " ++ buf_view ++ NL) ;;
    co_await (Sendmsg clientfd (to_iov http_400_hdr) MSG_NOSIGNAL 0) ;;
    ret tt.

(** The handler [accept_connection] spawns for each accepted descriptor. *)
Definition connection_handler (clientfd : Z) : task unit :=
  add_runningCoroutines 1 ;;
  try_catch (serve clientfd)
    (fun e => print ("sockfd " ++ fmt_int clientfd
                     ++ " crashed with exception: " ++ what env e ++ NL)) ;;
  emit (Close clientfd) ;;
  print ("sockfd " ++ fmt_int clientfd ++ " is closed, time used "
         ++ fmt_int (time_used env) ++ NL) ;;
  add_runningCoroutines (-1).

End Server.

(** ** Reading a run *)

Definition outcome_of {A} (r : outcome A * state * list event) : outcome A := fst (fst r).
Definition state_of {A} (r : outcome A * state * list event) : state := snd (fst r).
Definition trace_of {A} (r : outcome A * state * list event) : list event := snd r.

(** The bytes [serve] looks at: [std::string_view(buffer.data(),
    size_t(res))]. *)
Definition request (env : environment) : string :=
  substring 0 (Z.to_nat (to_size_t (recv_res env))) (received env).

(** Every send handed to the service: descriptor and bytes, in order. *)
Fixpoint sends (t : list event) : list (Z * iovec) :=
  match t with
  | [] => []
  | Submit _ (Sendmsg fd iov _ _) :: t' => (fd, iov) :: sends t'
  | _ :: t' => sends t'
  end.

(** Every file read handed to the service: offset and length, in order. *)
Fixpoint reads (t : list event) : list (Z * Z) :=
  match t with
  | [] => []
  | Submit _ (Readv _ iov offset) :: t' => (offset, iov_len iov) :: reads t'
  | _ :: t' => reads t'
  end.

(** The lengths of the sends that take their bytes from [filebuf]. *)
Definition body_sends (t : list event) : list Z :=
  flat_map (fun p => match iov_base (snd p) with
                     | FileBuf => [iov_len (snd p)]
                     | _ => []
                     end)
           (sends t).

Fixpoint opens (t : list event) : list string :=
  match t with
  | [] => []
  | Openat path _ _ :: t' => path :: opens t'
  | _ :: t' => opens t'
  end.

Fixpoint closes (fd : Z) (t : list event) : nat :=
  match t with
  | [] => O
  | Close fd' :: t' => (if fd' =? fd then S (closes fd t') else closes fd t')
  | _ :: t' => closes fd t'
  end.

(** Operations on the one reused [filebuf]: every file read, and every
    send whose bytes come from it. *)
Definition uses_filebuf (e : sqe) : bool :=
  match e with
  | Readv _ _ _ => true
  | Sendmsg _ {| iov_base := FileBuf |} _ _ => true
  | _ => false
  end.

(** Sends of bytes the responder wrote itself: the 200 header and the
    fixed 400 and 404 payloads. *)
Definition sends_text (e : sqe) : bool :=
  match e with
  | Sendmsg _ {| iov_base := Bytes _ |} _ _ => true
  | _ => false
  end.

(** The submissions that have not completed yet after the events [t],
    starting from the submissions [acc]. *)
Fixpoint pending (acc : list (nat * sqe)) (t : list event) : list (nat * sqe) :=
  match t with
  | [] => acc
  | Submit id e :: t' => pending (acc ++ [(id, e)]) t'
  | Complete id _ :: t' =>
      pending (filter (fun p => negb (Nat.eqb (fst p) id)) acc) t'
  | _ :: t' => pending acc t'
  end.

Definition in_flight (t : list event) : list (nat * sqe) := pending [] t.

(** The windows of a file of [fsize] bytes, as offset and length: [fsize / BUF_SIZE]
    full ones, then the remainder when there is one. *)
Definition full_windows (fsize : Z) : list (Z * Z) :=
  map (fun k => (Z.of_nat k * BUF_SIZE, BUF_SIZE))
      (seq 0 (Z.to_nat (fsize / BUF_SIZE))).

Definition last_window (fsize : Z) : list (Z * Z) :=
  if 0 <? fsize mod BUF_SIZE
  then [(fsize / BUF_SIZE * BUF_SIZE, fsize mod BUF_SIZE)]
  else [].

Definition windows (fsize : Z) : list (Z * Z) :=
  (full_windows fsize ++ last_window fsize)%list.

Definition sum_Z (l : list Z) : Z := fold_right Z.add 0 l.

(** The first token of a request: its bytes up to the first space. *)
Fixpoint first_token (s : string) : string :=
  match s with
  | EmptyString => EmptyString
  | String c s' => if Ascii.eqb c " " then EmptyString else String c (first_token s')
  end.

(** The environment in which the receive delivers [req], as much of it
    as the array of [BUF_SIZE] bytes holds. *)
Definition with_received (env : environment) (req : string) : environment :=
  {| openat := openat env; fstat := fstat env; MimeDicts := MimeDicts env;
     received := req; recv_res := Z.min (size req) BUF_SIZE;
     cqe_res := cqe_res env; race := race env;
     what := what env; time_used := time_used env |}.

(** The environment in which the receive reports [res], whatever lies in
    the array. *)
Definition with_recv_res (env : environment) (res : Z) : environment :=
  {| openat := openat env; fstat := fstat env; MimeDicts := MimeDicts env;
     received := received env; recv_res := res;
     cqe_res := cqe_res env; race := race env;
     what := what env; time_used := time_used env |}.

(** The file name [http_send_file] works with for the name it is given,
    and what [openat] reads of it. *)
Definition resolved (filename : string) : string :=
  if String.eqb filename "./" then "./index.html" else filename.

Definition opened (filename : string) : string := c_str (resolved filename).

(** The state with [n] more submissions made. *)
Definition advance (n : nat) (s : state) : state :=
  {| sq_tail := (n + sq_tail s)%nat; runningCoroutines := runningCoroutines s |}.

(** What [serve] does before it looks at the request. *)
Definition serve_prologue (env : environment) (clientfd : Z) (s : state) : list event :=
  [Print ("Serving connection, sockfd " ++ fmt_int clientfd
          ++ "; number of running coroutines: " ++ fmt_int (runningCoroutines s) ++ NL);
   Submit (sq_tail s) (Recvmsg clientfd (to_iov_array RecvBuf) MSG_NOSIGNAL);
   Complete (sq_tail s) (recv_res env)].

(** What the not-found branch of [http_send_file] does. *)
Definition not_found_events (env : environment) (path : string) (clientfd : Z)
    (s : state) : list event :=
  [Openat (c_str path) O_RDONLY (openat env (c_str path) O_RDONLY);
   Print (path ++ ": file not found!" ++ NL);
   Submit (sq_tail s) (Sendmsg clientfd (to_iov http_404_hdr) MSG_NOSIGNAL 0);
   Complete (sq_tail s) (cqe_res env (sq_tail s));
   Close (openat env (c_str path) O_RDONLY)].

(** A task keeps [P] when every trace it produces satisfies [P] and it
    leaves the counter of running handlers as it found it. *)
Definition keeps {A} (P : list event -> Prop) (m : task A) : Prop :=
  forall s, P (trace_of (m s))
            /\ runningCoroutines (state_of (m s)) = runningCoroutines s.

(** The state in which the handler runs [serve]: the counter of running
    handlers has been incremented. *)
Definition entered (s : state) : state :=
  {| sq_tail := sq_tail s; runningCoroutines := runningCoroutines s + 1 |}.

(** What the handler logs when [serve] ends by an exception. *)
Definition diagnostic (env : environment) (clientfd : Z) (o : outcome unit) : list event :=
  match o with
  | Done _ => []
  | Thrown e => [Print ("sockfd " ++ fmt_int clientfd
                        ++ " crashed with exception: " ++ what env e ++ NL)]
  end.

(** How many times the loop of [http_send_file] runs from [offset]. *)
Definition iterations (fsize offset : Z) : nat :=
  Z.to_nat ((fsize - offset - 1) / BUF_SIZE).


(** Whether an event hands the service an operation on [filebuf], and
    whether it hands it a send of text. *)
Definition is_filebuf_submit (ev : event) : bool :=
  match ev with
  | Submit _ e => uses_filebuf e
  | _ => false
  end.

Definition is_text_submit (ev : event) : bool :=
  match ev with
  | Submit _ e => sends_text e
  | _ => false
  end.

(** The discipline that makes the reuse of [filebuf] safe, on a trace:
    when the trace ends nothing is in flight; and whenever a file read is
    handed to the service, nothing handed earlier is still in flight, the
    read goes into [filebuf], and what follows at once is the linked send
    of the same bytes of [filebuf], the completion of the read and then
    the completion of the send. *)
Definition buffer_discipline (clientfd : Z) (t : list event) : Prop :=
  in_flight t = []
  /\ (forall pre id infd iov offset post,
         t = (pre ++ Submit id (Readv infd iov offset) :: post)%list ->
         in_flight pre = []
         /\ iov_base iov = FileBuf
         /\ exists flags ra rb post',
              post = Submit (S id) (Sendmsg clientfd iov flags IOSQE_IO_LINK)
                     :: Complete id ra :: Complete (S id) rb :: post').

(** Every send of text is awaited on the spot: what follows its
    submission is its completion. *)
Definition text_sends_awaited (t : list event) : Prop :=
  forall pre id e post,
    t = (pre ++ Submit id e :: post)%list ->
    sends_text e = true ->
    exists res post', post = Complete id res :: post'.

(** ** Readings of the specification that the code does not follow

    The specification words two properties in a way [serve] does not
    behave; they are written down here as it words them. *)

(** "For any request whose first token isn't exactly GET, the response
    is exactly the 400 payload", and no file is opened. *)
Definition other_token_gets_400 (env : environment) (clientfd : Z) (s : state) : Prop :=
  first_token (request env) <> "GET" ->
  sends (trace_of (serve env clientfd s)) = [(clientfd, to_iov http_400_hdr)]
  /\ opens (trace_of (serve env clientfd s)) = [].

(** "An empty read yields an empty path, which the Responder will simply
    fail to open": the not-found branch, not the 400 branch. *)
Definition empty_read_goes_not_found (env : environment) (clientfd : Z) (s : state) : Prop :=
  recv_res env = 0 ->
  opens (trace_of (serve env clientfd s)) <> []
  /\ sends (trace_of (serve env clientfd s)) = [(clientfd, to_iov http_404_hdr)].

(** ** A small world for concrete runs

    The root holds [index.html], a regular file of [sz] bytes, opened as
    descriptor 5, and [docs], a directory, opened as descriptor 6;
    nothing else exists.  The receive delivers [req]; every other
    completion reports [res]. *)
Definition demo_env (req : string) (sz res : Z) : environment :=
  {| openat := fun path _ =>
       if String.eqb path "./index.html" then 5
       else if String.eqb path "./docs" then 6 else -1;
     fstat := fun fd =>
       if fd =? 5 then Some {| st_mode := 33188; st_size := sz |}
       else if fd =? 6 then Some {| st_mode := 16877; st_size := 4096 |}
       else None;
     MimeDicts := fun ext => if String.eqb ext "html" then Some "text/html" else None;
     received := req;
     recv_res := Z.min (size req) BUF_SIZE;
     cqe_res := fun _ => res;
     race := fun _ => false;
     what := fun e => match e with
                      | out_of_range => "basic_string_view::substr"
                      | io_failure _ => "io failure"
                      end;
     time_used := 7 |}.

Definition idle : state := {| sq_tail := 0; runningCoroutines := 0 |}.


(** ** What the completions report *)





(** A completion that is not cut short: a file read that did not fail, a
    send from [filebuf] that reports the length it was given.  Nothing is
    asked of the other operations (the receive, the sends of text, the
    delay), whose results the responder does not use. *)
Definition completes_in_full (c : sqe * Z) : bool :=
  match fst c with
  | Readv _ _ _ => 0 <=? snd c
  | Sendmsg _ {| iov_base := FileBuf; iov_len := len |} _ _ =>
      (0 <=? snd c) && (snd c =? len)
  | _ => true
  end.

(** A read or a send of a window that reports an error. *)
Definition failed_window_operation (c : sqe * Z) : bool :=
  uses_filebuf (fst c) && (snd c <? 0).


(** ** Further readings of a run *)

(** The flags of every send handed to the service, in order. *)
Fixpoint send_flags (t : list event) : list Z :=
  match t with
  | [] => []
  | Submit _ (Sendmsg _ _ flags _) :: t' => flags :: send_flags t'
  | _ :: t' => send_flags t'
  end.

Definition has_flag (flags flag : Z) : bool := Z.land flags flag =? flag.

(** Whether a send is handed over without [MSG_NOSIGNAL]. *)
Definition unguarded_send (ev : event) : bool :=
  match ev with
  | Submit _ (Sendmsg _ _ flags _) => negb (has_flag flags MSG_NOSIGNAL)
  | _ => false
  end.

(** Whether an event opens or closes a descriptor. *)
Definition is_fd_event (ev : event) : bool :=
  match ev with
  | Openat _ _ _ => true
  | Close _ => true
  | _ => false
  end.

(** Whether an event hands the service an operation on a descriptor other
    than the connection (for a send or a receive) or the file (for a
    read). *)
Definition misaddressed (clientfd infd : Z) (ev : event) : bool :=
  match ev with
  | Submit _ (Sendmsg fd _ _ _) => negb (fd =? clientfd)
  | Submit _ (Recvmsg fd _ _) => negb (fd =? clientfd)
  | Submit _ (Readv fd _ _) => negb (fd =? infd)
  | _ => false
  end.

Fixpoint contains (c : ascii) (s : string) : bool :=
  match s with
  | EmptyString => false
  | String a s' => Ascii.eqb a c || contains c s'
  end.

(** The flags the body sends of a file of [fsize] bytes are given, window
    by window: [MSG_MORE] on all but the last. *)
Definition window_flags (fsize : Z) : list Z :=
  match List.length (windows fsize) with
  | O => []
  | S n => (repeat (Z.lor MSG_NOSIGNAL MSG_MORE) n ++ [MSG_NOSIGNAL])%list
  end.

(** Whether every operation of a trace is on the right descriptor: sends
    and receives on the connection, reads on what the latest [openat]
    before them returned ([opened] at the start of the trace). *)
Fixpoint addressed (clientfd : Z) (opened : option Z) (t : list event) : bool :=
  match t with
  | [] => true
  | Openat _ _ ret :: t' => addressed clientfd (Some ret) t'
  | Submit _ (Sendmsg fd _ _ _) :: t' => (fd =? clientfd) && addressed clientfd opened t'
  | Submit _ (Recvmsg fd _ _) :: t' => (fd =? clientfd) && addressed clientfd opened t'
  | Submit _ (Readv fd _ _) :: t' =>
      match opened with
      | Some infd => (fd =? infd) && addressed clientfd opened t'
      | None => false
      end
  | _ :: t' => addressed clientfd opened t'
  end.

(** ** The acceptor

    [accept_connection] awaits one accept after the other and spawns a
    handler for each result that is not zero.  The run of the acceptor
    itself is modelled over the results the accepts report, in order:
    which descriptors it spawns a handler for, and whether it has returned
    or waits for a further accept.  What a spawned handler does is
    [connection_handler]; how handlers interleave is not modelled. *)
Inductive acceptor_status : Type :=
| Returned
| Awaiting.

Fixpoint accept_connection (accepted : list Z) : list Z * acceptor_status :=
  match accepted with
  | [] => ([], Awaiting)
  | clientfd :: rest =>
      if clientfd =? 0 then ([], Returned)
      else match accept_connection rest with
           | (spawned, status) => (clientfd :: spawned, status)
           end
  end.

(** The small world again, with the result of one completion, the one of
    submission [bad], replaced by [res]. *)
Definition demo_env_with_result (req : string) (sz : Z) (bad : nat) (res : Z) : environment :=
  {| openat := openat (demo_env req sz 0);
     fstat := fstat (demo_env req sz 0);
     MimeDicts := MimeDicts (demo_env req sz 0);
     received := req;
     recv_res := Z.min (size req) BUF_SIZE;
     cqe_res := fun id => if Nat.eqb id bad then res else 0;
     race := fun _ => false;
     what := what (demo_env req sz 0);
     time_used := 7 |}.

(** * Properties *)

(** ** The string operations *)

Lemma size_nonneg (s : string) : 0 <= size s.
Proof. unfold size. lia. Qed.

Lemma to_size_t_small (z : Z) : 0 <= z < size_t_mod -> to_size_t z = z.
Proof. intros H. unfold to_size_t. apply Z.mod_small. exact H. Qed.

Lemma substr_in_range (s : string) (pos count : Z) :
  pos <= size s ->
  substr s pos count
  = Done (substring (Z.to_nat pos) (Z.to_nat (Z.min count (size s - pos))) s).
Proof.
  intros H. unfold substr.
  destruct (Z.ltb_spec (size s) pos) as [Hlt | Hge]; [lia | reflexivity].
Qed.

Lemma substr_out_of_range (s : string) (pos count : Z) :
  size s < pos -> substr s pos count = Thrown out_of_range.
Proof.
  intros H. unfold substr.
  destruct (Z.ltb_spec (size s) pos) as [Hlt | Hge]; [reflexivity | lia].
Qed.

(** Comparing a prefix never throws: position 0 is within every view. *)
Lemma compare_eq_prefix (s t : string) (count : Z) :
  compare_eq s 0 count t
  = Done (String.eqb (substring 0 (Z.to_nat (Z.min count (size s))) s) t).
Proof.
  unfold compare_eq. rewrite substr_in_range by apply size_nonneg.
  rewrite Z.sub_0_r. reflexivity.
Qed.

Lemma substring_length_le (s : string) (n m : nat) :
  (String.length (substring n m s) <= m)%nat.
Proof.
  revert n m. induction s as [| c s IH]; intros n m.
  - destruct n, m; simpl; lia.
  - destruct n as [| n].
    + destruct m as [| m]; simpl; [lia |]. specialize (IH O m). lia.
    + simpl. apply IH.
Qed.

(** A view never extends beyond what [size_t] can count. *)
Lemma request_size (env : environment) : 0 <= size (request env) < size_t_mod.
Proof.
  split; [apply size_nonneg |]. unfold request, size.
  pose proof (substring_length_le (received env) 0
                (Z.to_nat (to_size_t (recv_res env)))) as Hle.
  pose proof (Z.mod_pos_bound (recv_res env) size_t_mod ltac:(reflexivity)) as Hmod.
  unfold to_size_t in *. lia.
Qed.

(** ** One step of [serve] *)

(** A request that does not start with [GET]: one send of the 400 payload. *)
Lemma serve_unsupported (env : environment) (clientfd : Z) (s : state) :
  compare_eq (request env) 0 3 "GET" = Done false ->
  serve env clientfd s
  = (Done tt, advance 2 s,
     (serve_prologue env clientfd s
      ++ [Print ("unsupported request: " ++ request env ++ NL);
          Submit (S (sq_tail s)) (Sendmsg clientfd (to_iov http_400_hdr) MSG_NOSIGNAL 0);
          Complete (S (sq_tail s)) (cqe_res env (S (sq_tail s)))])%list).
Proof.
  intros Hget. unfold serve, bind, get_runningCoroutines, print, emit, co_await, lift.
  cbn [completion to_iov_array iov_len sq_tail runningCoroutines].
  fold (request env). rewrite Hget.
  reflexivity.
Qed.

(** A request that starts with [GET] and from which a path is extracted:
    the responder runs on that path. *)
Lemma serve_get (env : environment) (clientfd : Z) (s : state) (file : string) :
  compare_eq (request env) 0 3 "GET" = Done true ->
  request_file (request env) = Done file ->
  serve env clientfd s
  = match http_send_file env file clientfd (advance 1 s) with
    | (o, s', t) =>
        (o, s',
         (serve_prologue env clientfd s
          ++ Print ("received request " ++ file ++ " with sockfd "
                    ++ fmt_int clientfd ++ NL) :: t)%list)
    end.
Proof.
  intros Hget Hfile. unfold serve, bind, get_runningCoroutines, print, emit, co_await, lift.
  cbn [completion to_iov_array iov_len sq_tail runningCoroutines].
  fold (request env). rewrite Hget, Hfile.
  unfold advance. cbn [Nat.add].
  destruct (http_send_file env file clientfd _) as [[o s'] t].
  reflexivity.
Qed.

(** A request that starts with [GET] but whose path extraction throws:
    [serve] ends there, with nothing sent. *)
Lemma serve_throws (env : environment) (clientfd : Z) (s : state) (e : exn) :
  compare_eq (request env) 0 3 "GET" = Done true ->
  request_file (request env) = Thrown e ->
  serve env clientfd s = (Thrown e, advance 1 s, serve_prologue env clientfd s).
Proof.
  intros Hget Hfile. unfold serve, bind, get_runningCoroutines, print, emit, co_await, lift.
  cbn [completion to_iov_array iov_len sq_tail runningCoroutines].
  fold (request env). rewrite Hget, Hfile.
  reflexivity.
Qed.

(** ** The responder when there is no regular file to send *)

Lemma http_send_file_not_found (env : environment) (filename : string)
    (clientfd : Z) (s : state) :
  let infd := openat env (opened filename) O_RDONLY in
  (infd < 0
   \/ fstat env infd = None
   \/ exists st, fstat env infd = Some st /\ S_ISREG (st_mode st) = false) ->
  http_send_file env filename clientfd s
  = (Done tt, advance 1 s, not_found_events env (resolved filename) clientfd s).
Proof.
  intros infd H. unfold http_send_file. fold (resolved filename). fold (opened filename). fold infd.
  unfold send_not_found, bind, on_scope_exit, emit, print, co_await, ret,
    not_found_events.
  fold infd.
  destruct (Z.ltb_spec infd 0) as [Hneg | Hpos].
  - reflexivity.
  - destruct H as [H | [H | [st [H Hreg]]]]; [lia | rewrite H; reflexivity |].
    rewrite H, Hreg. reflexivity.
Qed.

(** ** The window loop *)

Lemma send_windows_step (env : environment) (infd clientfd fsize offset : Z) :
  send_windows env infd clientfd fsize offset
  = if BUF_SIZE <? fsize - offset
    then when_all env (Readv infd (to_iov_array FileBuf) offset)
                  (Sendmsg clientfd (to_iov_array FileBuf)
                           (Z.lor MSG_NOSIGNAL MSG_MORE) IOSQE_IO_LINK) ;;
         co_await env (Delay 1) ;;
         send_windows env infd clientfd fsize (offset + BUF_SIZE)
    else ret offset.
Proof.
  rewrite send_windows_unfold_eq. unfold send_windows_unfold.
  destruct (Z_lt_dec BUF_SIZE (fsize - offset)) as [Hlt | Hge];
    destruct (Z.ltb_spec BUF_SIZE (fsize - offset)) as [Hlt' | Hge'];
    try lia; reflexivity.
Qed.

(** Induction along the iterations of the loop. *)
Lemma window_loop_ind (fsize : Z) (P : Z -> Prop) :
  (forall offset, fsize - offset <= BUF_SIZE -> P offset) ->
  (forall offset, BUF_SIZE < fsize - offset -> P (offset + BUF_SIZE) -> P offset) ->
  forall offset, P offset.
Proof.
  intros Hstop Hstep offset.
  remember (Z.to_nat (fsize - offset)) as n eqn:Hn.
  revert offset Hn. induction n as [n IH] using lt_wf_ind. intros offset Hn.
  destruct (Z_lt_dec BUF_SIZE (fsize - offset)) as [Hlt | Hge].
  - apply Hstep; [exact Hlt |].
    apply (IH (Z.to_nat (fsize - (offset + BUF_SIZE)))); [| reflexivity].
    unfold BUF_SIZE in *. lia.
  - apply Hstop. lia.
Qed.

(** ** Requests that are not served a file *)

Lemma substring_prefix_min (s : string) (n : nat) :
  substring 0 (Nat.min n (String.length s)) s = substring 0 n s.
Proof.
  revert n. induction s as [| c s IH]; intros n.
  - destruct n; reflexivity.
  - destruct n as [| n]; [reflexivity |]. simpl. rewrite IH. reflexivity.
Qed.

(** The test [buf_view.compare(0, 3, "GET") == 0] looks at the first
    three bytes, or at all of them when there are fewer. *)
Lemma compare_GET (s : string) :
  compare_eq s 0 3 "GET" = Done (String.eqb (substring 0 3 s) "GET").
Proof.
  rewrite compare_eq_prefix.
  replace (Z.to_nat (Z.min 3 (size s))) with (Nat.min 3 (String.length s))
    by (unfold size; lia).
  rewrite substring_prefix_min. reflexivity.
Qed.

Lemma compare_GET_false (s : string) :
  substring 0 3 s <> "GET" -> compare_eq s 0 3 "GET" = Done false.
Proof.
  intros H. rewrite compare_GET. f_equal. apply String.eqb_neq. exact H.
Qed.

Lemma compare_GET_true (s : string) :
  substring 0 3 s = "GET" -> compare_eq s 0 3 "GET" = Done true.
Proof.
  intros H. rewrite compare_GET. f_equal. apply String.eqb_eq. exact H.
Qed.

(** C4 (amended): for every received request whose first three bytes are
    not exactly GET (a request shorter than three bytes included), the
    whole response is the fixed 400 payload, [serve] returns normally, and
    no file is opened and no body window is read or sent. *)
Theorem non_GET_prefix_gets_400 (env : environment) (clientfd : Z) (s : state) :
  substring 0 3 (request env) <> "GET" ->
  outcome_of (serve env clientfd s) = Done tt
  /\ sends (trace_of (serve env clientfd s)) = [(clientfd, to_iov http_400_hdr)]
  /\ opens (trace_of (serve env clientfd s)) = []
  /\ reads (trace_of (serve env clientfd s)) = []
  /\ body_sends (trace_of (serve env clientfd s)) = [].
Proof.
  intros H. rewrite (serve_unsupported env clientfd s (compare_GET_false _ H)).
  repeat split.
Qed.

Lemma non_GET_prefix_gets_400_witness :
  substring 0 3 (request (demo_env "POST /form HTTP/1.1" 2000 0)) <> "GET"
  /\ sends (trace_of (serve (demo_env "POST /form HTTP/1.1" 2000 0) 4 idle))
     = [(4, to_iov http_400_hdr)].
Proof.
  split.
  - intros H. vm_compute in H. discriminate H.
  - apply (non_GET_prefix_gets_400 (demo_env "POST /form HTTP/1.1" 2000 0) 4 idle).
    intros H. vm_compute in H. discriminate H.
Defined.

(** C4 as the specification words it fails: the first token of
    [GETX / HTTP/1.1] is not GET, yet the request is taken as a GET, a
    file is opened and the response is the 404 payload. *)
Lemma GETX_is_not_answered_400 :
  ~ other_token_gets_400 (demo_env "GETX / HTTP/1.1" 2000 0) 4 idle.
Proof.
  unfold other_token_gets_400. intros H.
  assert (Htok : first_token (request (demo_env "GETX / HTTP/1.1" 2000 0)) <> "GET").
  { intros E. vm_compute in E. discriminate E. }
  destruct (H Htok) as [_ Hopens]. vm_compute in Hopens. discriminate Hopens.
Qed.

(** C6 (amended): a receive that returns zero bytes (or that leaves
    nothing to look at) leaves a view that does not start with GET, so
    [serve] takes the unsupported-request branch: the whole response is
    the fixed 400 payload, no path is extracted and no file is opened. *)
Theorem empty_read_gets_400 (env : environment) (clientfd : Z) (s : state) :
  recv_res env = 0 \/ received env = "" ->
  outcome_of (serve env clientfd s) = Done tt
  /\ sends (trace_of (serve env clientfd s)) = [(clientfd, to_iov http_400_hdr)]
  /\ opens (trace_of (serve env clientfd s)) = [].
Proof.
  intros H.
  assert (Hreq : request env = "").
  { unfold request. destruct H as [H | H]; rewrite H.
    - destruct (received env); reflexivity.
    - destruct (Z.to_nat (to_size_t (recv_res env))); reflexivity. }
  assert (Hget : substring 0 3 (request env) <> "GET")
    by (rewrite Hreq; simpl; discriminate).
  rewrite (serve_unsupported env clientfd s (compare_GET_false _ Hget)).
  repeat split.
Qed.

Lemma empty_read_gets_400_witness :
  recv_res (demo_env "" 2000 0) = 0
  /\ sends (trace_of (serve (demo_env "" 2000 0) 4 idle)) = [(4, to_iov http_400_hdr)].
Proof.
  split; [reflexivity |].
  apply (empty_read_gets_400 (demo_env "" 2000 0) 4 idle). left. reflexivity.
Defined.

(** C6 as the specification words it fails: after an empty read no file
    is opened and the response is not the 404 payload. *)
Lemma empty_read_is_not_answered_404 :
  ~ empty_read_goes_not_found (demo_env "" 2000 0) 4 idle.
Proof.
  unfold empty_read_goes_not_found. intros H.
  destruct (H eq_refl) as [Hopens _]. apply Hopens. reflexivity.
Qed.

(** C5: for every GET request from which a path is extracted, when the
    open of the resolved path fails, or [fstat] fails, or the file is not
    a regular one, the whole response is the fixed 404 payload, [serve]
    returns normally, and no 200 header and no body window is sent. *)
Theorem no_regular_file_gets_404 (env : environment) (clientfd : Z) (s : state)
    (file : string) :
  substring 0 3 (request env) = "GET" ->
  request_file (request env) = Done file ->
  (openat env (opened file) O_RDONLY < 0
   \/ fstat env (openat env (opened file) O_RDONLY) = None
   \/ exists st, fstat env (openat env (opened file) O_RDONLY) = Some st
                 /\ S_ISREG (st_mode st) = false) ->
  outcome_of (serve env clientfd s) = Done tt
  /\ sends (trace_of (serve env clientfd s)) = [(clientfd, to_iov http_404_hdr)]
  /\ reads (trace_of (serve env clientfd s)) = []
  /\ body_sends (trace_of (serve env clientfd s)) = [].
Proof.
  intros Hget Hfile Hnone.
  rewrite (serve_get env clientfd s file (compare_GET_true _ Hget) Hfile).
  rewrite (http_send_file_not_found env file clientfd (advance 1 s) Hnone).
  repeat split.
Qed.

Lemma no_regular_file_gets_404_witness :
  sends (trace_of (serve (demo_env "GET /missing.txt HTTP/1.1" 2000 0) 4 idle))
  = [(4, to_iov http_404_hdr)]
  /\ sends (trace_of (serve (demo_env "GET /docs HTTP/1.1" 2000 0) 4 idle))
     = [(4, to_iov http_404_hdr)].
Proof.
  split.
  - apply (no_regular_file_gets_404
             (demo_env "GET /missing.txt HTTP/1.1" 2000 0) 4 idle "./missing.txt");
      [reflexivity | reflexivity | left; vm_compute; reflexivity].
  - apply (no_regular_file_gets_404
             (demo_env "GET /docs HTTP/1.1" 2000 0) 4 idle "./docs");
      [reflexivity | reflexivity |].
    right; right. exists {| st_mode := 16877; st_size := 4096 |}.
    split; reflexivity.
Defined.

(** ** Requests that start with GET *)

(** With at least four bytes received and no space from position 4 on,
    the path is everything from position 4 to the end of the read. *)
Lemma request_file_no_second_space (env : environment) :
  4 <= size (request env) ->
  find (request env) " " 4 = npos ->
  request_file (request env)
  = Done ("." ++ substring 4 (String.length (request env) - 4) (request env)).
Proof.
  intros Hlen Hfind. unfold request_file. rewrite Hfind.
  pose proof (request_size env) as Hsize.
  rewrite substr_in_range by lia.
  rewrite to_size_t_small by (unfold npos, size_t_mod; lia).
  replace (Z.to_nat (Z.min (npos - 4) (size (request env) - 4)))
    with (String.length (request env) - 4)%nat; [reflexivity |].
  unfold size, npos, size_t_mod, BUF_SIZE in *. lia.
Qed.

(** C10: the request that consists of the three bytes GET passes the
    method test and has no space from position 4 on, yet no path is
    extracted from it: [substr(4, ...)] on a view of three bytes throws,
    and [serve] ends with that exception. *)
Theorem bare_GET_path_extraction_throws :
  request (demo_env "GET" 2000 0) = "GET"
  /\ compare_eq "GET" 0 3 "GET" = Done true
  /\ find "GET" " " 4 = npos
  /\ request_file "GET" = Thrown out_of_range
  /\ outcome_of (serve (demo_env "GET" 2000 0) 4 idle) = Thrown out_of_range.
Proof. repeat split. Qed.

(** C7: the request that consists of the three bytes GET is answered by
    nothing at all: the handler logs the exception and closes the
    connection without a single send. *)
Theorem bare_GET_gets_no_response :
  sends (trace_of (connection_handler (demo_env "GET" 2000 0) 4 idle)) = []
  /\ closes 4 (trace_of (connection_handler (demo_env "GET" 2000 0) 4 idle)) = 1%nat
  /\ In (Print ("sockfd 4 crashed with exception: basic_string_view::substr" ++ NL))
        (trace_of (connection_handler (demo_env "GET" 2000 0) 4 idle))
  /\ outcome_of (connection_handler (demo_env "GET" 2000 0) 4 idle) = Done tt.
Proof.
  repeat split. vm_compute. auto.
Qed.

(** ** Properties kept by every step of the handler

    A property of traces that holds of the empty trace, is kept by
    concatenation and holds of what each primitive emits holds of every
    trace of the responder and of [serve], whatever the environment
    answers. *)

Section Invariants.

Variable env : environment.
Variable P : list event -> Prop.
Hypothesis P_nil : P [].
Hypothesis P_app : forall t1 t2, P t1 -> P t2 -> P (t1 ++ t2)%list.

Lemma keeps_ret {A} (a : A) : keeps P (ret a).
Proof. intros s. split; [exact P_nil | reflexivity]. Qed.

Lemma keeps_lift {A} (o : outcome A) : keeps P (lift o).
Proof. intros s. split; [exact P_nil | reflexivity]. Qed.

Lemma keeps_emit (e : event) : P [e] -> keeps P (emit e).
Proof. intros H s. split; [exact H | reflexivity]. Qed.

Lemma keeps_bind {A B} (m : task A) (k : A -> task B) :
  keeps P m -> (forall a, keeps P (k a)) -> keeps P (bind m k).
Proof.
  intros Hm Hk s. unfold bind. specialize (Hm s).
  destruct (m s) as [[[a | e] s1] t1]; unfold trace_of, state_of in *; simpl in *.
  - specialize (Hk a s1). destruct (k a s1) as [[o s2] t2].
    unfold trace_of, state_of in *; simpl in *.
    destruct Hm as [Ht1 Hc1]. destruct Hk as [Ht2 Hc2].
    split; [apply P_app; assumption | congruence].
  - exact Hm.
Qed.

Lemma keeps_try_catch (body : task unit) (handler : exn -> task unit) :
  keeps P body -> (forall e, keeps P (handler e)) -> keeps P (try_catch body handler).
Proof.
  intros Hm Hk s. unfold try_catch. specialize (Hm s).
  destruct (body s) as [[[a | e] s1] t1]; unfold trace_of, state_of in *; simpl in *.
  - exact Hm.
  - specialize (Hk e s1). destruct (handler e s1) as [[o s2] t2].
    unfold trace_of, state_of in *; simpl in *.
    destruct Hm as [Ht1 Hc1]. destruct Hk as [Ht2 Hc2].
    split; [apply P_app; assumption | congruence].
Qed.

Lemma keeps_on_scope_exit {A} (cleanup : event) (body : task A) :
  P [cleanup] -> keeps P body -> keeps P (on_scope_exit cleanup body).
Proof.
  intros Hc Hm s. unfold on_scope_exit. specialize (Hm s).
  destruct (body s) as [[o s1] t1]. unfold trace_of, state_of in *; simpl in *.
  destruct Hm as [Ht1 Hc1]. split; [apply P_app; assumption | exact Hc1].
Qed.

Lemma keeps_co_await (e : sqe) :
  (forall id res, P [Submit id e; Complete id res]) -> keeps P (co_await env e).
Proof. intros H s. split; [apply H | reflexivity]. Qed.

(** A pair whose second member carries the link flag completes in the
    order it was submitted, whether it fails or not. *)
Lemma when_all_linked (a b : sqe) (s : state) :
  linked b = true ->
  trace_of (when_all env a b s)
  = [Submit (sq_tail s) a; Submit (S (sq_tail s)) b;
     Complete (sq_tail s) (completion env (sq_tail s) a);
     Complete (S (sq_tail s)) (completion env (S (sq_tail s)) b)]
  /\ state_of (when_all env a b s) = advance 2 s.
Proof.
  intros Hl. unfold when_all. rewrite Hl. cbn [orb fst snd].
  destruct (completion env (sq_tail s) a <? 0);
    [| destruct (completion env (S (sq_tail s)) b <? 0)]; split; reflexivity.
Qed.

Lemma keeps_when_all (a b : sqe) :
  linked b = true ->
  (forall id ra rb, P [Submit id a; Submit (S id) b; Complete id ra; Complete (S id) rb]) ->
  keeps P (when_all env a b).
Proof.
  intros Hl H s. destruct (when_all_linked a b s Hl) as [Ht Hs].
  rewrite Ht, Hs. split; [apply H | reflexivity].
Qed.

(** What the body transfer emits: linked read/send pairs on [filebuf]
    and the delay between windows. *)
Variable clientfd : Z.
Hypothesis P_delay : forall id res, P [Submit id (Delay 1); Complete id res].
Hypothesis P_window :
  forall id infd len offset flags ra rb,
    P [Submit id (Readv infd {| iov_base := FileBuf; iov_len := len |} offset);
       Submit (S id) (Sendmsg clientfd {| iov_base := FileBuf; iov_len := len |}
                              flags IOSQE_IO_LINK);
       Complete id ra; Complete (S id) rb].

Lemma keeps_send_windows (infd fsize offset : Z) :
  keeps P (send_windows env infd clientfd fsize offset).
Proof.
  revert offset. apply (window_loop_ind fsize); intros offset Hcmp.
  - rewrite send_windows_step.
    destruct (Z.ltb_spec BUF_SIZE (fsize - offset)); [lia | apply keeps_ret].
  - intros IH. rewrite send_windows_step.
    destruct (Z.ltb_spec BUF_SIZE (fsize - offset)); [| lia].
    apply keeps_bind; [apply keeps_when_all; [reflexivity | intros; apply P_window] |].
    intros _. apply keeps_bind; [apply keeps_co_await; apply P_delay |].
    intros _. exact IH.
Qed.

Lemma keeps_send_body (infd fsize : Z) : keeps P (send_body env infd clientfd fsize).
Proof.
  unfold send_body. apply keeps_bind; [apply keeps_send_windows |].
  intros offset. destruct (offset <? fsize); [| apply keeps_ret].
  apply keeps_bind; [| intros _; apply keeps_ret].
  apply keeps_when_all; [reflexivity | intros; apply P_window].
Qed.

(** What the rest of the responder and [serve] emit. *)
Hypothesis P_print : forall msg, P [Print msg].
Hypothesis P_openat : forall path, P [Openat path O_RDONLY (openat env path O_RDONLY)].
Hypothesis P_close : forall path, P [Close (openat env path O_RDONLY)].
Hypothesis P_send_text :
  forall id text flags res,
    P [Submit id (Sendmsg clientfd (to_iov text) flags 0); Complete id res].
Hypothesis P_recv :
  forall id res,
    P [Submit id (Recvmsg clientfd (to_iov_array RecvBuf) MSG_NOSIGNAL); Complete id res].

Lemma keeps_send_not_found (filename : string) :
  keeps P (send_not_found env filename clientfd).
Proof.
  unfold send_not_found. apply keeps_bind; [apply keeps_emit, P_print |].
  intros _. apply keeps_bind; [apply keeps_co_await; intros; apply P_send_text |].
  intros _. apply keeps_ret.
Qed.

Lemma keeps_http_send_file (filename : string) :
  keeps P (http_send_file env filename clientfd).
Proof.
  unfold http_send_file. fold (resolved filename). fold (opened filename).
  apply keeps_bind; [apply keeps_emit, P_openat |]. intros _.
  apply keeps_on_scope_exit; [apply P_close |].
  destruct (if openat env (opened filename) O_RDONLY <? 0 then None
            else fstat env (openat env (opened filename) O_RDONLY)) as [st |];
    [| apply keeps_send_not_found].
  destruct (S_ISREG (st_mode st)); [| apply keeps_send_not_found].
  apply keeps_bind; [apply keeps_lift |]. intros mime.
  apply keeps_bind; [apply keeps_co_await; intros; apply P_send_text |].
  intros _. apply keeps_send_body.
Qed.

Lemma keeps_serve : keeps P (serve env clientfd).
Proof.
  unfold serve.
  apply keeps_bind; [intros s; split; [exact P_nil | reflexivity] |]. intros running.
  apply keeps_bind; [apply keeps_emit, P_print |]. intros _.
  apply keeps_bind; [apply keeps_co_await; intros; apply P_recv |]. intros res.
  apply keeps_bind; [apply keeps_lift |]. intros [|].
  - apply keeps_bind; [apply keeps_lift |]. intros file.
    apply keeps_bind; [apply keeps_emit, P_print |]. intros _.
    apply keeps_http_send_file.
  - apply keeps_bind; [apply keeps_emit, P_print |]. intros _.
    apply keeps_bind; [apply keeps_co_await; intros; apply P_send_text |].
    intros _. apply keeps_ret.
Qed.

End Invariants.

(** ** The connection handler *)

Lemma closes_app (fd : Z) (t1 t2 : list event) :
  closes fd (t1 ++ t2) = (closes fd t1 + closes fd t2)%nat.
Proof.
  induction t1 as [| e t1 IH]; [reflexivity |].
  destruct e; simpl; try exact IH. destruct (fd0 =? fd); simpl; rewrite IH; reflexivity.
Qed.

(** The handler is [serve] between an increment and a decrement of the
    counter, followed by the diagnostic if [serve] threw, the close of
    the connection and the closing log line. *)
Lemma connection_handler_run (env : environment) (clientfd : Z) (s : state) :
  connection_handler env clientfd s
  = (Done tt,
     {| sq_tail := sq_tail (state_of (serve env clientfd (entered s)));
        runningCoroutines :=
          runningCoroutines (state_of (serve env clientfd (entered s))) + -1 |},
     (trace_of (serve env clientfd (entered s))
      ++ diagnostic env clientfd (outcome_of (serve env clientfd (entered s)))
      ++ [Close clientfd;
          Print ("sockfd " ++ fmt_int clientfd ++ " is closed, time used "
                 ++ fmt_int (time_used env) ++ NL)])%list).
Proof.
  unfold connection_handler, bind, try_catch, add_runningCoroutines, print, emit.
  cbn [sq_tail runningCoroutines]. fold (entered s).
  destruct (serve env clientfd (entered s)) as [[[[] | e] s1] t1];
    unfold state_of, trace_of, outcome_of, diagnostic; cbn [fst snd app].
  - reflexivity.
  - rewrite <- app_assoc. reflexivity.
Qed.

(** [serve] never closes the connection itself, as long as the file it
    opens is not given the descriptor of the connection. *)
Lemma serve_leaves_connection_open (env : environment) (clientfd : Z) :
  (forall path, openat env path O_RDONLY <> clientfd) ->
  keeps (fun t => closes clientfd t = O) (serve env clientfd).
Proof.
  intros Hfd. apply keeps_serve; try reflexivity.
  - intros t1 t2 H1 H2. rewrite closes_app, H1, H2. reflexivity.
  - intros path. simpl. specialize (Hfd path).
    destruct (Z.eqb_spec (openat env path O_RDONLY) clientfd); [contradiction | reflexivity].
Qed.

(** C3: for every accepted connection, whatever the receive reports (a
    failure included), whatever lies in the array, and whatever the file
    system and the completions are, the handler returns normally; it
    closes the connection descriptor exactly once; the first thing it
    logs is the counter one above its value at entry, so the counter was
    incremented once before [serve] ran; [serve] leaves the counter as it
    is and the handler ends with the counter back at its value at entry,
    so it was decremented once after [serve]; the whole run is the run of
    [serve], the diagnostic exactly when [serve] ended by an exception,
    the close of the connection and the closing log line, so an exception
    of [serve] goes no further than the handler, which logs it. *)
Theorem handler_closes_once_and_contains_failures
    (env : environment) (clientfd : Z) (s : state) :
  (forall path, openat env path O_RDONLY <> clientfd) ->
  outcome_of (connection_handler env clientfd s) = Done tt
  /\ closes clientfd (trace_of (connection_handler env clientfd s)) = 1%nat
  /\ (exists rest,
         trace_of (connection_handler env clientfd s)
         = Print ("Serving connection, sockfd " ++ fmt_int clientfd
                  ++ "; number of running coroutines: "
                  ++ fmt_int (runningCoroutines s + 1) ++ NL) :: rest)
  /\ runningCoroutines (state_of (serve env clientfd (entered s)))
     = runningCoroutines s + 1
  /\ runningCoroutines (state_of (connection_handler env clientfd s))
     = runningCoroutines s
  /\ trace_of (connection_handler env clientfd s)
     = (trace_of (serve env clientfd (entered s))
        ++ diagnostic env clientfd (outcome_of (serve env clientfd (entered s)))
        ++ [Close clientfd;
            Print ("sockfd " ++ fmt_int clientfd ++ " is closed, time used "
                   ++ fmt_int (time_used env) ++ NL)])%list
  /\ (forall e,
         outcome_of (serve env clientfd (entered s)) = Thrown e ->
         In (Print ("sockfd " ++ fmt_int clientfd
                    ++ " crashed with exception: " ++ what env e ++ NL))
            (trace_of (connection_handler env clientfd s))).
Proof.
  intros Hfd. rewrite connection_handler_run.
  destruct (serve_leaves_connection_open env clientfd Hfd (entered s)) as [Hcl Hrc].
  assert (Hfirst : exists rest,
             trace_of (serve env clientfd (entered s))
             = Print ("Serving connection, sockfd " ++ fmt_int clientfd
                      ++ "; number of running coroutines: "
                      ++ fmt_int (runningCoroutines s + 1) ++ NL) :: rest).
  { destruct (String.eqb (substring 0 3 (request env)) "GET") eqn:Hget.
    - apply String.eqb_eq in Hget. apply compare_GET_true in Hget.
      destruct (request_file (request env)) as [file | e] eqn:Hfile.
      + rewrite (serve_get env clientfd (entered s) file Hget Hfile).
        destruct (http_send_file env file clientfd _) as [[o s'] t].
        eexists. reflexivity.
      + rewrite (serve_throws env clientfd (entered s) e Hget Hfile).
        eexists. reflexivity.
    - apply String.eqb_neq in Hget.
      rewrite (serve_unsupported env clientfd (entered s) (compare_GET_false _ Hget)).
      eexists. reflexivity. }
  unfold outcome_of, state_of, trace_of in *. cbn [fst snd] in *.
  split; [reflexivity |]. split.
  { rewrite !closes_app, Hcl.
    destruct (fst (fst (serve env clientfd (entered s)))); simpl;
      rewrite Z.eqb_refl; reflexivity. }
  split.
  { destruct Hfirst as [rest Hrest]. rewrite Hrest. eexists. reflexivity. }
  split; [exact Hrc |]. split.
  { cbn [runningCoroutines]. rewrite Hrc. simpl. lia. }
  split; [reflexivity |].
  intros e He. rewrite He. apply in_or_app. right. simpl. left. reflexivity.
Qed.

(** A receive that fails with [ECONNRESET] while the array still holds a
    request line, and completions that all fail with [EPIPE]: one close
    of the connection, the counter back at its value. *)
Lemma handler_closes_once_and_contains_failures_witness :
  closes 4 (trace_of (connection_handler
                        (with_recv_res (demo_env "GET / HTTP/1.1" 2000 (-32)) (-104))
                        4 idle))
  = 1%nat
  /\ runningCoroutines
       (state_of (connection_handler
                    (with_recv_res (demo_env "GET / HTTP/1.1" 2000 (-32)) (-104))
                    4 idle))
     = 0.
Proof.
  assert (Hfd : forall path,
             openat (with_recv_res (demo_env "GET / HTTP/1.1" 2000 (-32)) (-104))
                    path O_RDONLY <> 4).
  { intros path. simpl.
    destruct (String.eqb path "./index.html"); [lia |].
    destruct (String.eqb path "./docs"); lia. }
  destruct (handler_closes_once_and_contains_failures
              (with_recv_res (demo_env "GET / HTTP/1.1" 2000 (-32)) (-104)) 4 idle Hfd)
    as (_ & Hclose & _ & _ & Hcount & _).
  split; [exact Hclose | exact Hcount].
Defined.

(** ** The root path and the default document *)

(** The responder does not depend on what the request was, only on the
    file name it is given. *)
Lemma send_windows_with_received (env : environment) (req : string)
    (infd clientfd fsize offset : Z) (s : state) :
  send_windows (with_received env req) infd clientfd fsize offset s
  = send_windows env infd clientfd fsize offset s.
Proof.
  revert offset s. apply (window_loop_ind fsize (fun offset => forall s, _ = _));
    intros offset Hcmp.
  - intros s.
    rewrite (send_windows_step (with_received env req)), (send_windows_step env).
    destruct (Z.ltb_spec BUF_SIZE (fsize - offset)); [lia | reflexivity].
  - intros IH s.
    rewrite (send_windows_step (with_received env req) infd clientfd fsize offset),
      (send_windows_step env infd clientfd fsize offset).
    destruct (Z.ltb_spec BUF_SIZE (fsize - offset)); [| lia].
    unfold bind.
    change (when_all (with_received env req)
              (Readv infd (to_iov_array FileBuf) offset)
              (Sendmsg clientfd (to_iov_array FileBuf)
                       (Z.lor MSG_NOSIGNAL MSG_MORE) IOSQE_IO_LINK) s)
      with (when_all env
              (Readv infd (to_iov_array FileBuf) offset)
              (Sendmsg clientfd (to_iov_array FileBuf)
                       (Z.lor MSG_NOSIGNAL MSG_MORE) IOSQE_IO_LINK) s).
    destruct (when_all env _ _ s) as [[[res | e] s1] t1]; [| reflexivity].
    change (co_await (with_received env req) (Delay 1) s1)
      with (co_await env (Delay 1) s1).
    destruct (co_await env (Delay 1) s1) as [[[res' | e] s2] t2]; [| reflexivity].
    rewrite IH. reflexivity.
Qed.

Lemma send_body_with_received (env : environment) (req : string)
    (infd clientfd fsize : Z) (s : state) :
  send_body (with_received env req) infd clientfd fsize s
  = send_body env infd clientfd fsize s.
Proof.
  unfold send_body, bind. rewrite send_windows_with_received.
  destruct (send_windows env infd clientfd fsize 0 s) as [[[offset | e] s1] t1];
    [| reflexivity].
  destruct (offset <? fsize); reflexivity.
Qed.

Lemma http_send_file_with_received (env : environment) (req filename : string)
    (clientfd : Z) (s : state) :
  http_send_file (with_received env req) filename clientfd s
  = http_send_file env filename clientfd s.
Proof.
  unfold http_send_file, bind, on_scope_exit, emit, lift, co_await.
  cbn [openat fstat with_received completion].
  destruct (if openat env _ O_RDONLY <? 0 then None else fstat env _) as [st |];
    [| reflexivity].
  destruct (S_ISREG (st_mode st)); [| reflexivity].
  change (contentType (with_received env req)) with (contentType env).
  destruct (contentType env _) as [mime | e]; [| reflexivity].
  rewrite send_body_with_received. reflexivity.
Qed.


Lemma sends_app (t1 t2 : list event) : sends (t1 ++ t2) = (sends t1 ++ sends t2)%list.
Proof.
  induction t1 as [| e t1 IH]; [reflexivity |].
  destruct e as [| | | id [] |]; simpl; rewrite ?IH; reflexivity.
Qed.

Lemma reads_app (t1 t2 : list event) : reads (t1 ++ t2) = (reads t1 ++ reads t2)%list.
Proof.
  induction t1 as [| e t1 IH]; [reflexivity |].
  destruct e as [| | | id [] |]; simpl; rewrite ?IH; reflexivity.
Qed.

Lemma opens_app (t1 t2 : list event) : opens (t1 ++ t2) = (opens t1 ++ opens t2)%list.
Proof.
  induction t1 as [| e t1 IH]; [reflexivity |].
  destruct e; simpl; rewrite ?IH; reflexivity.
Qed.



(** ** Serving a regular file *)


Lemma find_last_from_range (c : ascii) (s : string) (idx last : Z) :
  find_last_from c s idx last = last
  \/ idx <= find_last_from c s idx last < idx + size s.
Proof.
  revert idx last. induction s as [| a s IH]; intros idx last; [left; reflexivity |].
  simpl. unfold size in *. simpl String.length.
  destruct (IH (idx + 1) (if Ascii.eqb a c then idx else last)) as [H | H].
  - rewrite H. destruct (Ascii.eqb a c); [right; lia | left; reflexivity].
  - right. lia.
Qed.

(** Taking the extension never throws: the position after the last dot,
    or 0 when there is none, lies within the name. *)
Lemma contentType_total (env : environment) (filename : string) :
  exists mime, contentType env filename = Done mime.
Proof.
  unfold contentType.
  assert (Hpos : to_size_t (find_last_of filename "." + 1) <= size filename).
  { unfold find_last_of.
    destruct (find_last_from_range "." filename 0 npos) as [H | H].
    - rewrite H. replace (to_size_t (npos + 1)) with 0 by reflexivity.
      apply size_nonneg.
    - unfold to_size_t.
      pose proof (Z.mod_le (find_last_from "." filename 0 npos + 1) size_t_mod).
      unfold size_t_mod in *. lia. }
  rewrite substr_in_range by exact Hpos.
  destruct (MimeDicts env _) as [mime |]; eexists; reflexivity.
Qed.

(** A linked pair both of whose members succeed. *)
Lemma when_all_ok (env : environment) (a b : sqe) (s : state) :
  linked b = true ->
  0 <= completion env (sq_tail s) a ->
  0 <= completion env (S (sq_tail s)) b ->
  when_all env a b s
  = (Done (completion env (sq_tail s) a, completion env (S (sq_tail s)) b),
     advance 2 s,
     [Submit (sq_tail s) a; Submit (S (sq_tail s)) b;
      Complete (sq_tail s) (completion env (sq_tail s) a);
      Complete (S (sq_tail s)) (completion env (S (sq_tail s)) b)]).
Proof.
  intros Hl Ha Hb. unfold when_all. rewrite Hl. cbn [orb fst snd].
  destruct (Z.ltb_spec (completion env (sq_tail s) a) 0); [lia |].
  destruct (Z.ltb_spec (completion env (S (sq_tail s)) b) 0); [lia |].
  reflexivity.
Qed.

Lemma iterations_stop (fsize offset : Z) :
  fsize - offset <= BUF_SIZE -> iterations fsize offset = O.
Proof.
  intros H. unfold iterations.
  destruct (Z_le_gt_dec (fsize - offset - 1) (-1)) as [Hneg | Hpos].
  - assert ((fsize - offset - 1) / BUF_SIZE < 0)
      by (apply Z.div_lt_upper_bound; unfold BUF_SIZE; lia).
    lia.
  - rewrite Z.div_small by (unfold BUF_SIZE in *; lia). reflexivity.
Qed.

Lemma iterations_step (fsize offset : Z) :
  BUF_SIZE < fsize - offset ->
  iterations fsize offset = S (iterations fsize (offset + BUF_SIZE)).
Proof.
  intros H. unfold iterations.
  replace (fsize - offset - 1) with ((fsize - (offset + BUF_SIZE) - 1) + 1 * BUF_SIZE) by lia.
  rewrite Z.div_add by (unfold BUF_SIZE; lia).
  assert (0 <= (fsize - (offset + BUF_SIZE) - 1) / BUF_SIZE)
    by (apply Z.div_pos; unfold BUF_SIZE in *; lia).
  lia.
Qed.

(** The loop runs once per full window, except that a file whose size is
    a positive multiple of [BUF_SIZE] leaves its last full window to the
    code after the loop. *)
Lemma iterations_from_start (fsize : Z) :
  0 <= fsize ->
  iterations fsize 0
  = if (0 <? fsize) && (fsize mod BUF_SIZE =? 0)
    then Nat.pred (Z.to_nat (fsize / BUF_SIZE))
    else Z.to_nat (fsize / BUF_SIZE).
Proof.
  intros Hpos. unfold iterations.
  destruct (Z.ltb_spec 0 fsize) as [Hgt | Hle]; simpl andb;
    [| replace fsize with 0 by lia; reflexivity].
  pose proof (Z.div_mod fsize BUF_SIZE) as Hdm.
  pose proof (Z.mod_pos_bound fsize BUF_SIZE) as Hr.
  unfold BUF_SIZE in *.
  specialize (Hdm ltac:(lia)). specialize (Hr ltac:(lia)).
  set (q := fsize / 1024) in *. set (r := fsize mod 1024) in *.
  destruct (Z.eqb_spec r 0) as [Hr0 | Hr0].
  - rewrite <- (Z.div_unique_pos (fsize - 0 - 1) 1024 (q - 1) 1023) by lia. lia.
  - rewrite <- (Z.div_unique_pos (fsize - 0 - 1) 1024 q (r - 1)) by lia. reflexivity.
Qed.

Lemma windows_as_loop (fsize : Z) :
  0 <= fsize ->
  windows fsize
  = (map (fun k => (0 + Z.of_nat k * BUF_SIZE, BUF_SIZE)) (seq 0 (iterations fsize 0))
     ++ (if 0 + Z.of_nat (iterations fsize 0) * BUF_SIZE <? fsize
         then [(0 + Z.of_nat (iterations fsize 0) * BUF_SIZE,
                to_size_t (fsize - (0 + Z.of_nat (iterations fsize 0) * BUF_SIZE)))]
         else []))%list.
Proof.
  intros Hpos. rewrite (iterations_from_start fsize Hpos).
  unfold windows, full_windows, last_window.
  change (fun k : nat => (0 + Z.of_nat k * BUF_SIZE, BUF_SIZE))
    with (fun k : nat => (Z.of_nat k * BUF_SIZE, BUF_SIZE)).
  destruct (Z.ltb_spec 0 fsize) as [Hgt | Hle]; simpl andb;
    [| replace fsize with 0 by lia; reflexivity].
  pose proof (Z.div_mod fsize BUF_SIZE) as Hdm.
  pose proof (Z.mod_pos_bound fsize BUF_SIZE) as Hr.
  unfold BUF_SIZE in *.
  specialize (Hdm ltac:(lia)). specialize (Hr ltac:(lia)).
  set (q := fsize / 1024) in *. set (r := fsize mod 1024) in *.
  assert (Hq : 0 <= q) by lia.
  destruct (Z.eqb_spec r 0) as [Hr0 | Hr0].
  - rewrite Hr0. change (0 <? 0) with false.
    assert (Hn : Z.to_nat q = S (Nat.pred (Z.to_nat q))) by lia.
    rewrite Hn at 1. rewrite seq_S, map_app, app_nil_r. f_equal.
    change (0 + ?x) with x.
    destruct (Z.ltb_spec (Z.of_nat (Nat.pred (Z.to_nat q)) * 1024) fsize); [| lia].
    rewrite to_size_t_small by (unfold size_t_mod; lia).
    simpl. do 2 f_equal. lia.
  - destruct (Z.ltb_spec 0 r); [| lia]. f_equal.
    change (0 + ?x) with x.
    destruct (Z.ltb_spec (Z.of_nat (Z.to_nat q) * 1024) fsize); [| lia].
    rewrite to_size_t_small by (unfold size_t_mod; lia).
    do 2 f_equal; lia.
Qed.

Lemma repeat_full_window (clientfd : Z) (n start : nat) :
  repeat (clientfd, to_iov_array FileBuf) n
  = map (fun w => (clientfd, {| iov_base := FileBuf; iov_len := snd w |}))
        (map (fun k => (0 + Z.of_nat k * BUF_SIZE, BUF_SIZE)) (seq start n)).
Proof.
  revert start. induction n as [| n IH]; intros start; [reflexivity |].
  simpl. rewrite <- IH. reflexivity.
Qed.

(** The responder on a regular file: the open, the header awaited, the
    body transfer, the close. *)
Lemma http_send_file_found (env : environment) (filename : string)
    (clientfd : Z) (s : state) (st : stat) (mime : string) :
  0 <= openat env (opened filename) O_RDONLY ->
  fstat env (openat env (opened filename) O_RDONLY) = Some st ->
  S_ISREG (st_mode st) = true ->
  contentType env (resolved filename) = Done mime ->
  http_send_file env filename clientfd s
  = match send_body env (openat env (opened filename) O_RDONLY) clientfd
                    (st_size st) (advance 1 s) with
    | (o, s', t) =>
        (o, s',
         (Openat (opened filename) O_RDONLY (openat env (opened filename) O_RDONLY)
          :: Submit (sq_tail s)
               (Sendmsg clientfd (to_iov (http_200_hdr mime (st_size st)))
                        (Z.lor MSG_NOSIGNAL MSG_MORE) 0)
          :: Complete (sq_tail s) (cqe_res env (sq_tail s))
          :: t ++ [Close (openat env (opened filename) O_RDONLY)])%list)
    end.
Proof.
  intros Hfd Hstat Hreg Hmime. unfold http_send_file. fold (resolved filename). fold (opened filename).
  unfold bind, on_scope_exit, emit, lift, co_await.
  destruct (Z.ltb_spec (openat env (opened filename) O_RDONLY) 0); [lia |].
  rewrite Hstat, Hreg, Hmime. cbn [completion].
  unfold advance. cbn [Nat.add].
  destruct (send_body env _ clientfd (st_size st) _) as [[o s'] t].
  reflexivity.
Qed.

Lemma sum_full_windows (n start : nat) :
  sum_Z (map snd (map (fun k => (Z.of_nat k * BUF_SIZE, BUF_SIZE)) (seq start n)))
  = Z.of_nat n * BUF_SIZE.
Proof.
  revert start. induction n as [| n IH]; intros start; [reflexivity |].
  cbn [seq map sum_Z fold_right snd]. fold (sum_Z (map snd
    (map (fun k => (Z.of_nat k * BUF_SIZE, BUF_SIZE)) (seq (S start) n)))).
  rewrite IH. lia.
Qed.

(** The windows of a file cover it exactly. *)
Lemma windows_cover (fsize : Z) : 0 <= fsize -> sum_Z (map snd (windows fsize)) = fsize.
Proof.
  intros Hpos. unfold windows, full_windows, last_window.
  rewrite map_app. unfold sum_Z. rewrite fold_right_app.
  pose proof (Z.div_mod fsize BUF_SIZE) as Hdm.
  pose proof (Z.mod_pos_bound fsize BUF_SIZE) as Hr.
  assert (HW : 0 < BUF_SIZE) by reflexivity.
  specialize (Hdm ltac:(lia)). specialize (Hr HW).
  assert (Hq : 0 <= fsize / BUF_SIZE) by (apply Z.div_pos; lia).
  assert (Hsum : forall l acc, fold_right Z.add acc l = sum_Z l + acc).
  { induction l as [| x l IH]; intros acc; simpl; [reflexivity |].
    rewrite IH. lia. }
  rewrite Hsum, sum_full_windows.
  destruct (0 <? fsize mod BUF_SIZE) eqn:Hrem; simpl.
  - lia.
  - apply Z.ltb_ge in Hrem. lia.
Qed.


Lemma filebuf_send_lengths (clientfd : Z) (ws : list (Z * Z)) :
  flat_map (fun p => match iov_base (snd p) with
                     | FileBuf => [iov_len (snd p)]
                     | _ => []
                     end)
           (map (fun w => (clientfd, {| iov_base := FileBuf; iov_len := snd w |})) ws)
  = map snd ws.
Proof.
  induction ws as [| w ws IH]; [reflexivity |]. simpl. rewrite IH. reflexivity.
Qed.

(** ** Order of operations on the shared buffer *)

Lemma pending_app (acc : list (nat * sqe)) (t1 t2 : list event) :
  pending acc (t1 ++ t2) = pending (pending acc t1) t2.
Proof.
  revert acc. induction t1 as [| e t1 IH]; intros acc; [reflexivity |].
  destruct e; simpl; apply IH.
Qed.

(** An element of a concatenation lies in its first or in its second part. *)
Lemma split_app {A} (l1 l2 pre post : list A) (x : A) :
  (l1 ++ l2 = pre ++ x :: post)%list ->
  (exists l, l1 = (pre ++ x :: l)%list /\ post = (l ++ l2)%list)
  \/ (exists l, pre = (l1 ++ l)%list /\ l2 = (l ++ x :: post)%list).
Proof.
  revert pre. induction l1 as [| a l1 IH]; intros pre H.
  - right. exists pre. split; [reflexivity | exact H].
  - destruct pre as [| b pre]; simpl in H; injection H as Ha Hl.
    + left. exists l1. subst. split; reflexivity.
    + subst b. destruct (IH pre Hl) as [[l [H1 H2]] | [l [H1 H2]]].
      * left. exists l. subst. split; reflexivity.
      * right. exists l. subst. split; reflexivity.
Qed.

Lemma buffer_discipline_nil (clientfd : Z) : buffer_discipline clientfd [].
Proof.
  split; [reflexivity |].
  intros pre id infd iov offset post H. destruct pre; discriminate H.
Qed.

Lemma buffer_discipline_app (clientfd : Z) (t1 t2 : list event) :
  buffer_discipline clientfd t1 -> buffer_discipline clientfd t2 ->
  buffer_discipline clientfd (t1 ++ t2).
Proof.
  intros (Hq1 & Hr1) (Hq2 & Hr2).
  unfold buffer_discipline, in_flight in *. split.
  - rewrite pending_app, Hq1. exact Hq2.
  - intros pre id infd iov offset post H.
    destruct (split_app _ _ _ _ _ H) as [[l [H1 H2]] | [l [H1 H2]]].
    + destruct (Hr1 _ _ _ _ _ _ H1)
        as (Hpre & Hbuf & flags & ra & rb & post' & Hpost).
      split; [exact Hpre |]. split; [exact Hbuf |].
      exists flags, ra, rb, (post' ++ t2)%list.
      rewrite H2, Hpost. reflexivity.
    + subst pre. rewrite pending_app, Hq1. exact (Hr2 _ _ _ _ _ _ H2).
Qed.

Lemma eqb_succ_self (n : nat) : Nat.eqb (S n) n = false.
Proof. apply Nat.eqb_neq. lia. Qed.

(** One awaited operation that is not a file read. *)
Lemma buffer_discipline_await (clientfd : Z) (id : nat) (e : sqe) (res : Z) :
  (forall infd iov offset, e <> Readv infd iov offset) ->
  buffer_discipline clientfd [Submit id e; Complete id res].
Proof.
  intros He. unfold buffer_discipline, in_flight. split.
  - cbn [pending app filter fst negb]. rewrite Nat.eqb_refl. reflexivity.
  - intros pre id' infd iov offset post H.
    destruct pre as [| a [| b [| c pre]]]; simpl in H; try discriminate H.
    injection H as _ He'. contradiction (He _ _ _ He').
Qed.

(** An event that hands nothing to the service. *)
Lemma buffer_discipline_other (clientfd : Z) (ev : event) :
  (forall id e, ev <> Submit id e) ->
  (forall id res, ev <> Complete id res) ->
  buffer_discipline clientfd [ev].
Proof.
  intros Hs Hc. unfold buffer_discipline, in_flight. split.
  - destruct ev; try reflexivity. contradiction (Hs _ _ eq_refl).
  - intros pre id infd iov offset post H.
    destruct pre as [| a [| b pre]]; simpl in H; try discriminate H.
    injection H as H. contradiction (Hs _ _ H).
Qed.

(** One window: the read and the linked send submitted together, the
    read completing first. *)
Lemma buffer_discipline_window (id : nat) (clientfd infd len offset flags ra rb : Z) :
  buffer_discipline clientfd
    [Submit id (Readv infd {| iov_base := FileBuf; iov_len := len |} offset);
     Submit (S id) (Sendmsg clientfd {| iov_base := FileBuf; iov_len := len |}
                            flags IOSQE_IO_LINK);
     Complete id ra; Complete (S id) rb].
Proof.
  unfold buffer_discipline, in_flight. split.
  - cbn [pending app filter fst negb]. rewrite Nat.eqb_refl, eqb_succ_self.
    cbn [pending app filter fst negb]. rewrite Nat.eqb_refl. reflexivity.
  - intros pre id' infd' iov offset' post H.
    destruct pre as [| a [| b [| c [| d pre]]]]; cbn [app] in H; try discriminate H.
    + injection H as Hid Hfd Hiov Hoff Hpost. subst id' infd' iov offset' post.
      split; [reflexivity |]. split; [reflexivity |].
      exists flags, ra, rb, []. reflexivity.
    + destruct pre; discriminate H.
Qed.

(** Every trace of [serve] follows the discipline, whatever is received
    and whatever the service and the file system answer. *)
Lemma serve_buffer_discipline (env : environment) (clientfd : Z) :
  keeps (buffer_discipline clientfd) (serve env clientfd).
Proof.
  apply keeps_serve.
  - apply buffer_discipline_nil.
  - apply buffer_discipline_app.
  - intros. apply buffer_discipline_await. discriminate.
  - intros. apply buffer_discipline_window.
  - intros. apply buffer_discipline_other; discriminate.
  - intros. apply buffer_discipline_other; discriminate.
  - intros. apply buffer_discipline_other; discriminate.
  - intros. apply buffer_discipline_await. discriminate.
  - intros. apply buffer_discipline_await. discriminate.
Qed.

(** C2: in every run of [serve], at the moment a read of a window into
    the shared buffer is handed to the service, every operation handed
    earlier has completed, so both the read and the send of the window
    before it have; and the read is followed at once by its linked send
    of the same bytes, the completion of the read, and only then the
    completion of the send.  The next read can only come after that. *)
Theorem window_read_waits_for_previous_pair (env : environment) (clientfd : Z)
    (s : state) (pre post : list event) (id : nat) (infd offset : Z) (iov : iovec) :
  trace_of (serve env clientfd s)
  = (pre ++ Submit id (Readv infd iov offset) :: post)%list ->
  in_flight pre = []
  /\ iov_base iov = FileBuf
  /\ exists flags ra rb post',
       post = Submit (S id) (Sendmsg clientfd iov flags IOSQE_IO_LINK)
              :: Complete id ra :: Complete (S id) rb :: post'.
Proof.
  intros H.
  destruct (serve_buffer_discipline env clientfd s) as [[_ Hr] _].
  exact (Hr _ _ _ _ _ _ H).
Qed.

Lemma window_read_waits_for_previous_pair_witness :
  in_flight (firstn 13 (trace_of (serve (demo_env "GET /index.html HTTP/1.1" 2000 0)
                                        4 idle))) = [].
Proof.
  eapply (window_read_waits_for_previous_pair
            (demo_env "GET /index.html HTTP/1.1" 2000 0) 4 idle
            (firstn 13 (trace_of (serve (demo_env "GET /index.html HTTP/1.1" 2000 0)
                                        4 idle)))
            _ 5%nat 5 1024 {| iov_base := FileBuf; iov_len := 976 |}).
  reflexivity.
Defined.

(** ** The header before the body *)

Lemma text_sends_awaited_app (t1 t2 : list event) :
  text_sends_awaited t1 -> text_sends_awaited t2 -> text_sends_awaited (t1 ++ t2).
Proof.
  intros H1 H2 pre id e post H He.
  destruct (split_app _ _ _ _ _ H) as [[l [Hl Hp]] | [l [Hl Hp]]].
  - destruct (H1 _ _ _ _ Hl He) as (res & post' & Hpost).
    exists res, (post' ++ t2)%list. rewrite Hp, Hpost. reflexivity.
  - exact (H2 _ _ _ _ Hp He).
Qed.

Lemma text_sends_awaited_await (id : nat) (e : sqe) (res : Z) :
  text_sends_awaited [Submit id e; Complete id res].
Proof.
  intros pre id' e' post H He.
  destruct pre as [| a [| b [| c pre]]]; simpl in H; try discriminate H.
  injection H as Hid _ Hpost. subst id' post. exists res, []. reflexivity.
Qed.

Lemma text_sends_awaited_other (t : list event) :
  Forall (fun ev => is_text_submit ev = false) t -> text_sends_awaited t.
Proof.
  intros Hall pre id e post H He. subst t.
  apply Forall_app in Hall. destruct Hall as [_ Hall].
  apply Forall_inv in Hall. simpl in Hall. congruence.
Qed.

Lemma serve_text_sends_awaited (env : environment) (clientfd : Z) :
  keeps text_sends_awaited (serve env clientfd).
Proof.
  apply keeps_serve.
  - apply text_sends_awaited_other. constructor.
  - exact text_sends_awaited_app.
  - intros. apply text_sends_awaited_await.
  - intros. apply text_sends_awaited_other. repeat constructor.
  - intros. apply text_sends_awaited_other. repeat constructor.
  - intros. apply text_sends_awaited_other. repeat constructor.
  - intros. apply text_sends_awaited_other. repeat constructor.
  - intros. apply text_sends_awaited_await.
  - intros. apply text_sends_awaited_await.
Qed.

(** The body transfer hands the service no send of text. *)
Lemma send_body_no_text (env : environment) (infd clientfd fsize : Z) :
  keeps (Forall (fun ev => is_text_submit ev = false))
        (send_body env infd clientfd fsize).
Proof.
  apply keeps_send_body.
  - constructor.
  - intros t1 t2 H1 H2. apply Forall_app. split; assumption.
  - intros. repeat constructor.
  - intros. repeat constructor.
Qed.

(** An element that a first part excludes lies in the second part. *)
Lemma split_after {A} (Q : A -> bool) (l1 l2 pre post : list A) (x : A) :
  Forall (fun y => Q y = false) l1 ->
  Q x = true ->
  (l1 ++ l2 = pre ++ x :: post)%list ->
  exists l, pre = (l1 ++ l)%list /\ l2 = (l ++ x :: post)%list.
Proof.
  intros Hall Hx H.
  destruct (split_app _ _ _ _ _ H) as [[l [Hl Hp]] | [l [Hl Hp]]].
  - subst l1. apply Forall_app in Hall. destruct Hall as [_ Hall].
    apply Forall_inv in Hall. congruence.
  - exists l. split; assumption.
Qed.

Lemma no_split_in {A} (Q : A -> bool) (l pre post : list A) (x : A) :
  Forall (fun y => Q y = false) l -> Q x = true -> l <> (pre ++ x :: post)%list.
Proof.
  intros Hall Hx H. subst l. apply Forall_app in Hall. destruct Hall as [_ Hall].
  apply Forall_inv in Hall. congruence.
Qed.

Lemma serve_prologue_no_filebuf (env : environment) (clientfd : Z) (s : state) :
  Forall (fun ev => is_filebuf_submit ev = false) (serve_prologue env clientfd s).
Proof. repeat constructor. Qed.

(** The file there is to send, or the reason there is none. *)
Lemma regular_or_not (env : environment) (path : string) :
  (openat env path O_RDONLY < 0
   \/ fstat env (openat env path O_RDONLY) = None
   \/ exists st, fstat env (openat env path O_RDONLY) = Some st
                 /\ S_ISREG (st_mode st) = false)
  \/ (0 <= openat env path O_RDONLY
      /\ exists st, fstat env (openat env path O_RDONLY) = Some st
                    /\ S_ISREG (st_mode st) = true).
Proof.
  destruct (Z_lt_dec (openat env path O_RDONLY) 0) as [Hneg | Hpos]; [left; left; exact Hneg |].
  destruct (fstat env (openat env path O_RDONLY)) as [st |] eqn:Hst;
    [| left; right; left; reflexivity].
  destruct (S_ISREG (st_mode st)) eqn:Hreg.
  - right. split; [lia |]. exists st. split; [reflexivity | exact Hreg].
  - left. right. right. exists st. split; [reflexivity | exact Hreg].
Qed.

(** Whenever an operation on [filebuf] is handed to the service, the 200
    header has been sent and has completed, and no send of text follows. *)
Lemma body_after_header (env : environment) (clientfd : Z) (s : state)
    (pre post : list event) (ev : event) :
  trace_of (serve env clientfd s) = (pre ++ ev :: post)%list ->
  is_filebuf_submit ev = true ->
  (exists hid mime len res pre1 pre2,
      pre = (pre1
             ++ Submit hid (Sendmsg clientfd (to_iov (http_200_hdr mime len))
                                    (Z.lor MSG_NOSIGNAL MSG_MORE) 0)
             :: Complete hid res :: pre2)%list)
  /\ Forall (fun ev' => is_text_submit ev' = false) (ev :: post).
Proof.
  intros H Hev.
  destruct (String.eqb (substring 0 3 (request env)) "GET") eqn:Hget.
  2: { exfalso. apply String.eqb_neq in Hget.
       rewrite (serve_unsupported env clientfd s (compare_GET_false _ Hget)) in H.
       revert H. apply (no_split_in is_filebuf_submit); [| exact Hev].
       apply Forall_app. split; [apply serve_prologue_no_filebuf | repeat constructor]. }
  apply String.eqb_eq in Hget. apply compare_GET_true in Hget.
  destruct (request_file (request env)) as [file | e] eqn:Hfile.
  2: { exfalso. rewrite (serve_throws env clientfd s e Hget Hfile) in H.
       revert H. apply (no_split_in is_filebuf_submit); [| exact Hev].
       apply serve_prologue_no_filebuf. }
  rewrite (serve_get env clientfd s file Hget Hfile) in H.
  destruct (regular_or_not env (opened file)) as [Hnone | (Hfd & st & Hstat & Hreg)].
  { exfalso. rewrite (http_send_file_not_found env file clientfd _ Hnone) in H.
    revert H. apply (no_split_in is_filebuf_submit); [| exact Hev].
    apply Forall_app. split; [apply serve_prologue_no_filebuf | repeat constructor]. }
  destruct (contentType_total env (resolved file)) as [mime Hmime].
  rewrite (http_send_file_found env file clientfd _ st mime Hfd Hstat Hreg Hmime) in H.
  destruct (send_body_no_text env (openat env (opened file) O_RDONLY) clientfd
              (st_size st) (advance 1 (advance 1 s))) as [Hbody _].
  destruct (send_body env _ clientfd (st_size st) _) as [[o s'] t].
  unfold trace_of in H, Hbody. cbn [fst snd] in H, Hbody.
  set (hdr := Submit (sq_tail (advance 1 s))
                (Sendmsg clientfd (to_iov (http_200_hdr mime (st_size st)))
                         (Z.lor MSG_NOSIGNAL MSG_MORE) 0)) in *.
  set (done := Complete (sq_tail (advance 1 s)) (cqe_res env (sq_tail (advance 1 s)))) in *.
  set (infd := openat env (opened file) O_RDONLY) in *.
  set (head := (serve_prologue env clientfd s
                ++ [Print ("received request " ++ file ++ " with sockfd "
                           ++ fmt_int clientfd ++ NL);
                    Openat (opened file) O_RDONLY infd])%list).
  assert (Hshape :
            ((head ++ [hdr; done]) ++ (t ++ [Close infd]) = pre ++ ev :: post)%list).
  { rewrite <- H. unfold head. rewrite <- app_assoc, <- app_assoc. reflexivity. }
  assert (Hhead : Forall (fun ev' => is_filebuf_submit ev' = false)
                         (head ++ [hdr; done])).
  { apply Forall_app. split; [| repeat constructor].
    apply Forall_app. split; [apply serve_prologue_no_filebuf | repeat constructor]. }
  destruct (split_after is_filebuf_submit _ _ _ _ _ Hhead Hev Hshape)
    as [l [Hpre Hrest]].
  split.
  - exists (sq_tail (advance 1 s)), mime, (st_size st),
      (cqe_res env (sq_tail (advance 1 s))), head, l.
    rewrite Hpre, <- app_assoc. reflexivity.
  - assert (Hall : Forall (fun ev' => is_text_submit ev' = false) (t ++ [Close infd]))
      by (apply Forall_app; split; [exact Hbody | repeat constructor]).
    rewrite Hrest in Hall. apply Forall_app in Hall. exact (proj2 Hall).
Qed.

(** C8: in every run of [serve], every send of text (the 200 header, the
    404 and the 400 payload) is awaited on the spot, its completion being
    the very next event, and nothing is in flight when [serve] ends;
    whenever a read or a send of a body window is handed to the service,
    the 200 header has been sent to the connection and has completed
    before, and no send of text comes after it.  So no body byte goes out
    before the header or between two parts of it. *)
Theorem header_awaited_before_body (env : environment) (clientfd : Z) (s : state) :
  text_sends_awaited (trace_of (serve env clientfd s))
  /\ in_flight (trace_of (serve env clientfd s)) = []
  /\ forall pre ev post,
       trace_of (serve env clientfd s) = (pre ++ ev :: post)%list ->
       is_filebuf_submit ev = true ->
       (exists hid mime len res pre1 pre2,
           pre = (pre1
                  ++ Submit hid (Sendmsg clientfd (to_iov (http_200_hdr mime len))
                                         (Z.lor MSG_NOSIGNAL MSG_MORE) 0)
                  :: Complete hid res :: pre2)%list)
       /\ Forall (fun ev' => is_text_submit ev' = false) (ev :: post).
Proof.
  split; [apply serve_text_sends_awaited |].
  split; [apply serve_buffer_discipline |].
  intros pre ev post. apply body_after_header.
Qed.

Lemma header_awaited_before_body_witness :
  Forall (fun ev' => is_text_submit ev' = false)
         (skipn 7 (trace_of (serve (demo_env "GET /index.html HTTP/1.1" 2000 0) 4 idle))).
Proof.
  eapply (proj2 (proj2 (header_awaited_before_body
                          (demo_env "GET /index.html HTTP/1.1" 2000 0) 4 idle))
            (firstn 7 (trace_of (serve (demo_env "GET /index.html HTTP/1.1" 2000 0)
                                       4 idle))));
    reflexivity.
Defined.

(** * Further properties of the code *)

(** ** The body transfer in every run *)

Lemma send_flags_app (t1 t2 : list event) :
  send_flags (t1 ++ t2) = (send_flags t1 ++ send_flags t2)%list.
Proof.
  induction t1 as [| e t1 IH]; [reflexivity |].
  destruct e as [| | | id [] |]; simpl; rewrite ?IH; reflexivity.
Qed.

(** A linked pair either succeeds, both results being non-negative, or
    raises, one of the two results being negative. *)
Lemma when_all_result (env : environment) (a b : sqe) (s : state) :
  linked b = true ->
  (outcome_of (when_all env a b s)
   = Done (completion env (sq_tail s) a, completion env (S (sq_tail s)) b)
   /\ 0 <= completion env (sq_tail s) a
   /\ 0 <= completion env (S (sq_tail s)) b)
  \/ ((exists e, outcome_of (when_all env a b s) = Thrown e)
      /\ (completion env (sq_tail s) a < 0
          \/ completion env (S (sq_tail s)) b < 0)).
Proof.
  intros Hl. unfold when_all. rewrite Hl. cbn [orb fst snd].
  destruct (Z.ltb_spec (completion env (sq_tail s) a) 0) as [Ha | Ha].
  - right. split; [eexists; reflexivity | left; exact Ha].
  - destruct (Z.ltb_spec (completion env (S (sq_tail s)) b) 0) as [Hb | Hb].
    + right. split; [eexists; reflexivity | right; exact Hb].
    + left. repeat split; assumption.
Qed.

(** The loop in every run: it reads and sends full windows at consecutive
    offsets, with [MSG_MORE], until it has done them all or a pair fails;
    it fails only if some completion from then on reports an error. *)
Lemma send_windows_run (env : environment) (infd clientfd fsize : Z) :
  forall offset s,
  exists k,
    (k <= iterations fsize offset)%nat
    /\ reads (trace_of (send_windows env infd clientfd fsize offset s))
       = map (fun i => (offset + Z.of_nat i * BUF_SIZE, BUF_SIZE)) (seq 0 k)
    /\ sends (trace_of (send_windows env infd clientfd fsize offset s))
       = repeat (clientfd, to_iov_array FileBuf) k
    /\ send_flags (trace_of (send_windows env infd clientfd fsize offset s))
       = repeat (Z.lor MSG_NOSIGNAL MSG_MORE) k
    /\ (sq_tail s <= sq_tail (state_of (send_windows env infd clientfd fsize offset s)))%nat
    /\ ((outcome_of (send_windows env infd clientfd fsize offset s)
         = Done (offset + Z.of_nat (iterations fsize offset) * BUF_SIZE)
         /\ k = iterations fsize offset)
        \/ ((exists e, outcome_of (send_windows env infd clientfd fsize offset s)
                       = Thrown e)
            /\ exists id, (sq_tail s <= id)%nat /\ cqe_res env id < 0)).
Proof.
  apply (window_loop_ind fsize (fun offset => forall s, exists k, _));
    intros offset Hcmp.
  - intros s. rewrite send_windows_step.
    destruct (Z.ltb_spec BUF_SIZE (fsize - offset)); [lia |].
    rewrite (iterations_stop _ _ Hcmp). exists O.
    unfold ret, outcome_of, trace_of, state_of. cbn [fst snd].
    repeat split; try reflexivity; try lia.
    left. split; [f_equal; lia | reflexivity].
  - intros IH s. rewrite send_windows_step.
    destruct (Z.ltb_spec BUF_SIZE (fsize - offset)); [| lia].
    rewrite (iterations_step _ _ Hcmp).
    set (a := Readv infd (to_iov_array FileBuf) offset).
    set (b := Sendmsg clientfd (to_iov_array FileBuf)
                      (Z.lor MSG_NOSIGNAL MSG_MORE) IOSQE_IO_LINK).
    destruct (when_all_linked env a b s eq_refl) as [Ht Hs].
    pose proof (when_all_result env a b s eq_refl) as Hres.
    unfold bind.
    destruct (when_all env a b s) as [[o1 s1] t1].
    unfold outcome_of, trace_of, state_of in Ht, Hs, Hres. cbn [fst snd] in Ht, Hs, Hres.
    subst t1 s1.
    destruct Hres as [(Ho & Ha & Hb) | ([e He] & Hneg)]; subst o1.
    + cbn [co_await]. unfold advance. cbn [sq_tail runningCoroutines Nat.add].
      destruct (IH {| sq_tail := S (S (S (sq_tail s)));
                      runningCoroutines := runningCoroutines s |})
        as (k & Hk & Hr & Hsd & Hfl & Hst & Hout).
      destruct (send_windows env infd clientfd fsize (offset + BUF_SIZE) _)
        as [[o s'] t].
      unfold outcome_of, trace_of, state_of in *. cbn [fst snd sq_tail] in *.
      exists (S k). split; [lia |].
      split.
      { subst a b. cbn [app reads]. rewrite Hr. cbn [seq map to_iov_array iov_len].
        f_equal; [f_equal; lia |].
        rewrite <- seq_shift, map_map. apply map_ext. intros i. f_equal. lia. }
      split; [subst a b; cbn [app sends]; rewrite Hsd; reflexivity |].
      split; [subst a b; cbn [app send_flags]; rewrite Hfl; reflexivity |].
      split; [lia |].
      destruct Hout as [[Ho Hkn] | [[e He] [id [Hid Hbad]]]].
      * left. subst o k. split; [f_equal; lia | reflexivity].
      * right. split; [exists e; exact He |]. exists id. split; [lia | exact Hbad].
    + exists 1%nat. unfold outcome_of, trace_of, state_of, advance. cbn [fst snd sq_tail].
      split; [lia |].
      split; [subst a b; cbn; do 2 f_equal; lia |].
      split; [reflexivity |]. split; [reflexivity |]. split; [lia |].
      right. split; [exists e; reflexivity |].
      subst a b. cbn [completion] in Hneg.
      destruct Hneg as [Hneg | Hneg];
        [exists (sq_tail s) | exists (S (sq_tail s))]; split; try lia; exact Hneg.
Qed.

Lemma iterations_below (fsize : Z) :
  0 < fsize -> Z.of_nat (iterations fsize 0) * BUF_SIZE < fsize.
Proof.
  intros Hpos. unfold iterations.
  assert (Hq : 0 <= (fsize - 0 - 1) / BUF_SIZE)
    by (apply Z.div_pos; unfold BUF_SIZE; lia).
  pose proof (Z.mul_div_le (fsize - 0 - 1) BUF_SIZE ltac:(reflexivity)) as Hle.
  rewrite Z2Nat.id by exact Hq. lia.
Qed.

(** An empty file has no window; any other file has the full windows the
    loop sends and one last window after them. *)
Lemma windows_shape (fsize : Z) :
  0 <= fsize ->
  (fsize = 0 /\ windows fsize = [] /\ iterations fsize 0 = O)
  \/ (0 < fsize
      /\ windows fsize
         = (map (fun i => (0 + Z.of_nat i * BUF_SIZE, BUF_SIZE))
                (seq 0 (iterations fsize 0))
            ++ [(0 + Z.of_nat (iterations fsize 0) * BUF_SIZE,
                 to_size_t (fsize - (0 + Z.of_nat (iterations fsize 0) * BUF_SIZE)))])%list).
Proof.
  intros Hpos. destruct (Z.eq_dec fsize 0) as [H0 | H0].
  - left. subst fsize. repeat split.
  - right. split; [lia |]. rewrite (windows_as_loop fsize Hpos).
    pose proof (iterations_below fsize ltac:(lia)) as Hlt.
    destruct (Z.ltb_spec (0 + Z.of_nat (iterations fsize 0) * BUF_SIZE) fsize);
      [reflexivity | lia].
Qed.

Lemma firstn_map_seq {A} (f : nat -> A) (k n start : nat) :
  (k <= n)%nat -> firstn k (map f (seq start n)) = map f (seq start k).
Proof.
  revert n start. induction k as [| k IH]; intros n start Hk; [reflexivity |].
  destruct n as [| n]; [lia |]. simpl. rewrite IH by lia. reflexivity.
Qed.

Lemma firstn_repeat_le {A} (x : A) (k n : nat) :
  (k <= n)%nat -> firstn k (repeat x n) = repeat x k.
Proof.
  revert n. induction k as [| k IH]; intros n Hk; [reflexivity |].
  destruct n as [| n]; [lia |]. simpl. rewrite IH by lia. reflexivity.
Qed.

Lemma firstn_front {A} (k : nat) (l1 l2 : list A) :
  (k <= List.length l1)%nat -> firstn k (l1 ++ l2) = firstn k l1.
Proof.
  intros Hk. rewrite firstn_app.
  replace (k - List.length l1)%nat with O by lia. simpl. apply app_nil_r.
Qed.

Lemma window_flags_empty : window_flags 0 = [].
Proof. reflexivity. Qed.

Lemma window_flags_nonempty (fsize : Z) :
  0 < fsize ->
  window_flags fsize
  = (repeat (Z.lor MSG_NOSIGNAL MSG_MORE) (iterations fsize 0) ++ [MSG_NOSIGNAL])%list.
Proof.
  intros Hpos. unfold window_flags.
  destruct (windows_shape fsize ltac:(lia)) as [[H0 _] | [_ Hw]]; [lia |].
  rewrite Hw, length_app, length_map, length_seq. simpl List.length.
  rewrite Nat.add_1_r. reflexivity.
Qed.

(** The body transfer in every run: what is read and sent is an initial
    part of the windows of the file, all of them when the transfer
    returns; it raises only if some completion reports an error. *)
Lemma send_body_run (env : environment) (infd clientfd fsize : Z) (s : state) :
  0 <= fsize ->
  exists k,
    reads (trace_of (send_body env infd clientfd fsize s)) = firstn k (windows fsize)
    /\ sends (trace_of (send_body env infd clientfd fsize s))
       = map (fun w => (clientfd, {| iov_base := FileBuf; iov_len := snd w |}))
             (firstn k (windows fsize))
    /\ send_flags (trace_of (send_body env infd clientfd fsize s))
       = firstn k (window_flags fsize)
    /\ ((outcome_of (send_body env infd clientfd fsize s) = Done tt
         /\ k = List.length (windows fsize))
        \/ ((exists e, outcome_of (send_body env infd clientfd fsize s) = Thrown e)
            /\ exists id, (sq_tail s <= id)%nat /\ cqe_res env id < 0)).
Proof.
  intros Hpos. unfold send_body, bind.
  destruct (send_windows_run env infd clientfd fsize 0 s)
    as (k & Hk & Hr & Hsd & Hfl & Hst & Hout).
  destruct (send_windows env infd clientfd fsize 0 s) as [[o s1] t1].
  unfold outcome_of, trace_of, state_of in *. cbn [fst snd] in *.
  rewrite (repeat_full_window clientfd k 0) in Hsd.
  destruct (windows_shape fsize Hpos) as [(H0 & Hw & Hn) | (Hgt & Hw)].
  - (* the empty file *)
    rewrite Hn in *. assert (k = O) by lia. subst k fsize.
    rewrite Hw. exists O. cbn [firstn map seq repeat] in *.
    destruct Hout as [[Ho _] | [[e He] Hbad]]; subst o.
    + cbn [Z.of_nat Z.mul Z.add Z.ltb Z.compare ret fst snd app].
      rewrite app_nil_r, Hr, Hsd, Hfl. repeat split. left. split; reflexivity.
    + cbn [fst snd]. rewrite Hr, Hsd, Hfl. repeat split.
      right. split; [exists e; reflexivity | exact Hbad].
  - rewrite Hw, (window_flags_nonempty fsize Hgt).
    set (full := map (fun i => (0 + Z.of_nat i * BUF_SIZE, BUF_SIZE))
                     (seq 0 (iterations fsize 0))) in *.
    assert (Hlen : List.length full = iterations fsize 0)
      by (unfold full; rewrite length_map, length_seq; reflexivity).
    destruct Hout as [[Ho Hkn] | [[e He] Hbad]]; subst o.
    + (* the loop has sent every full window: the last window follows *)
      subst k.
      destruct (Z.ltb_spec (0 + Z.of_nat (iterations fsize 0) * BUF_SIZE) fsize)
        as [Hlt | Hge]; [| pose proof (iterations_below fsize Hgt); lia].
      set (iov := set_iov_len (to_iov_array FileBuf)
                    (to_size_t (fsize - (0 + Z.of_nat (iterations fsize 0) * BUF_SIZE)))).
      set (a := Readv infd iov (0 + Z.of_nat (iterations fsize 0) * BUF_SIZE)).
      set (b := Sendmsg clientfd iov MSG_NOSIGNAL IOSQE_IO_LINK).
      destruct (when_all_linked env a b s1 eq_refl) as [Ht Hs].
      pose proof (when_all_result env a b s1 eq_refl) as Hres.
      destruct (when_all env a b s1) as [[o2 s2] t2].
      unfold outcome_of, trace_of, state_of in *. cbn [fst snd] in *. subst t2 s2.
      exists (S (iterations fsize 0)).
      rewrite (firstn_all2 (n := S (iterations fsize 0)))
        by (rewrite length_app, Hlen; simpl; lia).
      rewrite (firstn_all2 (n := S (iterations fsize 0)))
        by (rewrite length_app, repeat_length; simpl; lia).
      assert (Htr : forall rest,
                 reads (t1 ++ [Submit (sq_tail s1) a; Submit (S (sq_tail s1)) b;
                               Complete (sq_tail s1) (completion env (sq_tail s1) a);
                               Complete (S (sq_tail s1))
                                        (completion env (S (sq_tail s1)) b)] ++ rest)
                 = (full ++ (0 + Z.of_nat (iterations fsize 0) * BUF_SIZE,
                             to_size_t (fsize - (0 + Z.of_nat (iterations fsize 0) * BUF_SIZE)))
                         :: reads rest)%list
                 /\ sends (t1 ++ [Submit (sq_tail s1) a; Submit (S (sq_tail s1)) b;
                                  Complete (sq_tail s1) (completion env (sq_tail s1) a);
                                  Complete (S (sq_tail s1))
                                           (completion env (S (sq_tail s1)) b)] ++ rest)
                    = (map (fun w => (clientfd, {| iov_base := FileBuf; iov_len := snd w |}))
                           full
                       ++ (clientfd, iov) :: sends rest)%list
                 /\ send_flags (t1 ++ [Submit (sq_tail s1) a; Submit (S (sq_tail s1)) b;
                                       Complete (sq_tail s1) (completion env (sq_tail s1) a);
                                       Complete (S (sq_tail s1))
                                                (completion env (S (sq_tail s1)) b)] ++ rest)
                    = (repeat (Z.lor MSG_NOSIGNAL MSG_MORE) (iterations fsize 0)
                       ++ MSG_NOSIGNAL :: send_flags rest)%list).
      { intros rest. rewrite reads_app, sends_app, send_flags_app, Hr, Hsd, Hfl.
        repeat split. }
      destruct Hres as [(Ho & _ & _) | ([e He] & Hneg)]; subst o2.
      * cbn [ret fst snd]. destruct (Htr []) as (H1 & H2 & H3).
        rewrite H1, H2, H3, map_app. repeat split.
        left. split; [reflexivity |]. rewrite length_app, Hlen. simpl. lia.
      * cbn [fst snd]. destruct (Htr []) as (H1 & H2 & H3).
        rewrite app_nil_r in H1, H2, H3.
        rewrite H1, H2, H3, map_app. repeat split.
        right. split; [exists e; reflexivity |].
        subst a b. cbn [completion] in Hneg.
        destruct Hneg as [Hneg | Hneg];
          [exists (sq_tail s1) | exists (S (sq_tail s1))]; split; try lia; exact Hneg.
    + (* a full window has failed *)
      exists k. cbn [fst snd].
      rewrite (firstn_front k full) by lia.
      rewrite (firstn_front k (repeat _ _)) by (rewrite repeat_length; lia).
      unfold full. rewrite firstn_map_seq by lia. rewrite firstn_repeat_le by lia.
      rewrite Hr, Hsd, Hfl. repeat split.
      right. split; [exists e; reflexivity | exact Hbad].
Qed.

(** ** What the completions of a transfer report *)



Lemma eqb_self_succ (n : nat) : Nat.eqb n (S n) = false.
Proof. apply Nat.eqb_neq. lia. Qed.







(** Where no read and no send of a window reported an error, no
    completion is one of those. *)
Lemma no_failed_window_operation (c : list (sqe * Z)) :
  forallb completes_in_full c = true -> existsb failed_window_operation c = false.
Proof.
  induction c as [| [e res] c IH]; [reflexivity |].
  cbn [forallb existsb]. intros H. apply andb_prop in H. destruct H as [He Hc].
  rewrite (IH Hc), Bool.orb_false_r.
  unfold failed_window_operation, completes_in_full in *. cbn [fst snd] in *.
  destruct e as [fd iov fl | fd [[x | |] len] fl ifl | fd iov off | sec];
    cbn [uses_filebuf andb] in *; try reflexivity.
  - apply andb_prop in He. destruct He as [He _].
    apply Z.leb_le in He. apply Z.ltb_ge. exact He.
  - apply Z.leb_le in He. apply Z.ltb_ge. exact He.
Qed.


(** ** What the responder and [serve] hand over, step by step

    As in [Invariants], but with each primitive exactly as the source
    writes it (its descriptor, its bytes and its flags), and with the
    property free to depend on the descriptor of the file. *)

Section Shapes.

Variable env : environment.
Variable clientfd : Z.
Variable P : Z -> list event -> Prop.
Hypothesis P_nil : forall infd, P infd [].
Hypothesis P_app : forall infd t1 t2, P infd t1 -> P infd t2 -> P infd (t1 ++ t2)%list.
Hypothesis P_delay : forall infd id res, P infd [Submit id (Delay 1); Complete id res].
Hypothesis P_full_window :
  forall infd id offset ra rb,
    P infd [Submit id (Readv infd (to_iov_array FileBuf) offset);
            Submit (S id) (Sendmsg clientfd (to_iov_array FileBuf)
                                   (Z.lor MSG_NOSIGNAL MSG_MORE) IOSQE_IO_LINK);
            Complete id ra; Complete (S id) rb].
Hypothesis P_last_window :
  forall infd id len offset ra rb,
    P infd [Submit id (Readv infd {| iov_base := FileBuf; iov_len := len |} offset);
            Submit (S id) (Sendmsg clientfd {| iov_base := FileBuf; iov_len := len |}
                                   MSG_NOSIGNAL IOSQE_IO_LINK);
            Complete id ra; Complete (S id) rb].
Hypothesis P_print : forall infd msg, P infd [Print msg].
Hypothesis P_404 :
  forall infd id res,
    P infd [Submit id (Sendmsg clientfd (to_iov http_404_hdr) MSG_NOSIGNAL 0);
            Complete id res].
Hypothesis P_200 :
  forall infd id mime len res,
    P infd [Submit id (Sendmsg clientfd (to_iov (http_200_hdr mime len))
                               (Z.lor MSG_NOSIGNAL MSG_MORE) 0);
            Complete id res].

Lemma shape_send_windows (infd fsize offset : Z) :
  keeps (P infd) (send_windows env infd clientfd fsize offset).
Proof.
  revert offset. apply (window_loop_ind fsize); intros offset Hcmp.
  - rewrite send_windows_step.
    destruct (Z.ltb_spec BUF_SIZE (fsize - offset)); [lia |].
    apply keeps_ret, P_nil.
  - intros IH. rewrite send_windows_step.
    destruct (Z.ltb_spec BUF_SIZE (fsize - offset)); [| lia].
    apply keeps_bind; [apply P_app | |].
    + apply keeps_when_all; [reflexivity | intros; apply P_full_window].
    + intros _. apply keeps_bind; [apply P_app | |].
      * apply keeps_co_await. apply P_delay.
      * intros _. exact IH.
Qed.

Lemma shape_send_body (infd fsize : Z) :
  keeps (P infd) (send_body env infd clientfd fsize).
Proof.
  unfold send_body. apply keeps_bind; [apply P_app | apply shape_send_windows |].
  intros offset. destruct (offset <? fsize); [| apply keeps_ret, P_nil].
  apply keeps_bind; [apply P_app | | intros _; apply keeps_ret, P_nil].
  apply keeps_when_all; [reflexivity | intros; apply P_last_window].
Qed.

Lemma shape_send_not_found (infd : Z) (filename : string) :
  keeps (P infd) (send_not_found env filename clientfd).
Proof.
  unfold send_not_found.
  apply keeps_bind; [apply P_app | apply keeps_emit, P_print |].
  intros _. apply keeps_bind; [apply P_app | | intros _; apply keeps_ret, P_nil].
  apply keeps_co_await. apply P_404.
Qed.

(** The responder opens the resolved name, does what [P] describes, and
    closes what the open returned. *)
Lemma http_send_file_shape (filename : string) (s : state) :
  exists body,
    trace_of (http_send_file env filename clientfd s)
    = (Openat (opened filename) O_RDONLY (openat env (opened filename) O_RDONLY)
       :: body ++ [Close (openat env (opened filename) O_RDONLY)])%list
    /\ P (openat env (opened filename) O_RDONLY) body.
Proof.
  unfold http_send_file. fold (resolved filename). fold (opened filename).
  set (infd := openat env (opened filename) O_RDONLY).
  assert (Hbody : keeps (P infd)
            (match (if infd <? 0 then None else fstat env infd) with
             | Some st =>
                 if S_ISREG (st_mode st) then
                   mime <- lift (contentType env (resolved filename)) ;;
                   co_await env (Sendmsg clientfd
                                   (to_iov (http_200_hdr mime (st_size st)))
                                   (Z.lor MSG_NOSIGNAL MSG_MORE) 0) ;;
                   send_body env infd clientfd (st_size st)
                 else send_not_found env (resolved filename) clientfd
             | None => send_not_found env (resolved filename) clientfd
             end)).
  { destruct (if infd <? 0 then None else fstat env infd) as [st |];
      [| apply shape_send_not_found].
    destruct (S_ISREG (st_mode st)); [| apply shape_send_not_found].
    apply keeps_bind; [apply P_app | apply keeps_lift, P_nil |]. intros mime.
    apply keeps_bind; [apply P_app | apply keeps_co_await; intros; apply P_200 |].
    intros _. apply shape_send_body. }
  unfold bind at 1. unfold emit at 1. unfold on_scope_exit.
  specialize (Hbody s). destruct Hbody as [Hbody _].
  match goal with
  | |- context [match ?m s with _ => _ end] => destruct (m s) as [[o s'] body]
  end.
  unfold trace_of in *. cbn [fst snd app] in *.
  exists body. split; [reflexivity | exact Hbody].
Qed.

(** A run of [serve] is the receive, then one of three things: the 400
    payload; nothing, the path extraction having thrown; or the responder
    on the extracted path. *)
Lemma serve_shape (s : state) :
  trace_of (serve env clientfd s)
  = (serve_prologue env clientfd s
     ++ [Print ("unsupported request: " ++ request env ++ NL);
         Submit (S (sq_tail s)) (Sendmsg clientfd (to_iov http_400_hdr) MSG_NOSIGNAL 0);
         Complete (S (sq_tail s)) (cqe_res env (S (sq_tail s)))])%list
  \/ trace_of (serve env clientfd s) = serve_prologue env clientfd s
  \/ exists file body,
       request_file (request env) = Done file
       /\ trace_of (serve env clientfd s)
          = (serve_prologue env clientfd s
             ++ Print ("received request " ++ file ++ " with sockfd "
                       ++ fmt_int clientfd ++ NL)
             :: Openat (opened file) O_RDONLY (openat env (opened file) O_RDONLY)
             :: body ++ [Close (openat env (opened file) O_RDONLY)])%list
       /\ P (openat env (opened file) O_RDONLY) body.
Proof.
  destruct (String.eqb (substring 0 3 (request env)) "GET") eqn:Hget.
  2: { left. apply String.eqb_neq in Hget.
       rewrite (serve_unsupported env clientfd s (compare_GET_false _ Hget)).
       reflexivity. }
  apply String.eqb_eq in Hget. apply compare_GET_true in Hget.
  destruct (request_file (request env)) as [file | e] eqn:Hfile.
  2: { right. left. rewrite (serve_throws env clientfd s e Hget Hfile). reflexivity. }
  right. right. exists file.
  rewrite (serve_get env clientfd s file Hget Hfile).
  destruct (http_send_file_shape file (advance 1 s)) as [body [Hbody HP]].
  destruct (http_send_file env file clientfd (advance 1 s)) as [[o s'] t].
  unfold trace_of in *. cbn [fst snd] in *. subst t.
  exists body. repeat split. exact HP.
Qed.

End Shapes.

(** ** Descriptors *)

Lemma no_fd_events_opens (t : list event) :
  Forall (fun ev => is_fd_event ev = false) t -> opens t = [].
Proof.
  induction 1 as [| ev t Hev _ IH]; [reflexivity |].
  destruct ev; try discriminate Hev; exact IH.
Qed.

Lemma no_fd_events_closes (fd : Z) (t : list event) :
  Forall (fun ev => is_fd_event ev = false) t -> closes fd t = O.
Proof.
  induction 1 as [| ev t Hev _ IH]; [reflexivity |].
  destruct ev; try discriminate Hev; exact IH.
Qed.

(** The responder opens first, closes last, and neither opens nor closes
    in between. *)
Lemma http_send_file_fd_events (env : environment) (filename : string)
    (clientfd : Z) (s : state) :
  exists body,
    trace_of (http_send_file env filename clientfd s)
    = (Openat (opened filename) O_RDONLY (openat env (opened filename) O_RDONLY)
       :: body ++ [Close (openat env (opened filename) O_RDONLY)])%list
    /\ Forall (fun ev => is_fd_event ev = false) body.
Proof.
  apply (http_send_file_shape env clientfd
           (fun _ => Forall (fun ev => is_fd_event ev = false))).
  - intros; constructor.
  - intros infd t1 t2 H1 H2; apply Forall_app; split; assumption.
  - intros; repeat constructor.
  - intros; repeat constructor.
  - intros; repeat constructor.
  - intros; repeat constructor.
  - intros; repeat constructor.
  - intros; repeat constructor.
Qed.

(** X2: whatever the name, the file system and the service do, the
    responder makes exactly one [openat], of the resolved name as a C
    string and read-only, as its first step, and exactly one [close], of
    what that
    [openat] returned, as its last step; this holds when the open failed
    (the close is then of the negative result) and when the transfer
    raised. *)
Theorem responder_opens_once_and_closes_last (env : environment) (filename : string)
    (clientfd : Z) (s : state) :
  opens (trace_of (http_send_file env filename clientfd s)) = [opened filename]
  /\ (forall fd,
         closes fd (trace_of (http_send_file env filename clientfd s))
         = if openat env (opened filename) O_RDONLY =? fd then 1%nat else O)
  /\ exists body,
       trace_of (http_send_file env filename clientfd s)
       = (Openat (opened filename) O_RDONLY (openat env (opened filename) O_RDONLY)
          :: body ++ [Close (openat env (opened filename) O_RDONLY)])%list
       /\ Forall (fun ev => is_fd_event ev = false) body.
Proof.
  destruct (http_send_file_fd_events env filename clientfd s) as [body [Ht Hbody]].
  rewrite Ht. split; [| split].
  - cbn [opens]. rewrite opens_app, (no_fd_events_opens body Hbody). reflexivity.
  - intros fd. cbn [closes]. rewrite closes_app, (no_fd_events_closes fd body Hbody).
    cbn [closes Nat.add]. destruct (openat env (opened filename) O_RDONLY =? fd);
      reflexivity.
  - exists body. split; [reflexivity | exact Hbody].
Qed.

(** X3: in every run of the handler, whatever is received and whatever
    the file system and the service answer, no send is handed to the
    service without [MSG_NOSIGNAL]. *)
Theorem every_send_suppresses_sigpipe (env : environment) (clientfd : Z) (s : state) :
  Forall (fun ev => unguarded_send ev = false)
         (trace_of (connection_handler env clientfd s)).
Proof.
  rewrite connection_handler_run. unfold trace_of at 1. cbn [snd].
  apply Forall_app. split.
  - destruct (serve_shape env clientfd
                (fun _ => Forall (fun ev => unguarded_send ev = false))
                ltac:(intros; constructor)
                ltac:(intros infd t1 t2 H1 H2; apply Forall_app; split; assumption)
                ltac:(intros; repeat constructor)
                ltac:(intros; repeat constructor)
                ltac:(intros; repeat constructor)
                ltac:(intros; repeat constructor)
                ltac:(intros; repeat constructor)
                ltac:(intros; repeat constructor)
                (entered s)) as [Ht | [Ht | (file & body & _ & Ht & Hbody)]];
      rewrite Ht.
    + apply Forall_app. split; repeat constructor.
    + repeat constructor.
    + apply Forall_app. split; [repeat constructor |].
      constructor; [reflexivity |]. constructor; [reflexivity |].
      apply Forall_app. split; [exact Hbody | repeat constructor].
  - apply Forall_app. split; [| repeat constructor].
    destruct (outcome_of (serve env clientfd (entered s))); repeat constructor.
Qed.

(** X10: in every run of [serve], every send and the receive are on the
    descriptor of the connection, and every file read is on the descriptor
    that the [openat] before it returned; no read is handed over before a
    file has been opened. *)
Theorem operations_stay_on_their_descriptors (env : environment) (clientfd : Z)
    (s : state) :
  addressed clientfd None (trace_of (serve env clientfd s)) = true.
Proof.
  destruct (serve_shape env clientfd
              (fun infd body =>
                 forall rest, addressed clientfd (Some infd) rest = true ->
                              addressed clientfd (Some infd) (body ++ rest) = true)
              ltac:(intros infd rest H; exact H)
              ltac:(intros infd t1 t2 H1 H2 rest H; rewrite <- app_assoc;
                    apply H1, H2, H)
              ltac:(intros infd id res rest H; exact H)
              ltac:(intros infd id offset ra rb rest H; cbn [app addressed];
                    rewrite !Z.eqb_refl; exact H)
              ltac:(intros infd id len offset ra rb rest H; cbn [app addressed];
                    rewrite !Z.eqb_refl; exact H)
              ltac:(intros infd msg rest H; exact H)
              ltac:(intros infd id res rest H; cbn [app addressed];
                    rewrite Z.eqb_refl; exact H)
              ltac:(intros infd id mime len res rest H; cbn [app addressed];
                    rewrite Z.eqb_refl; exact H)
              s) as [Ht | [Ht | (file & body & _ & Ht & Hbody)]];
    rewrite Ht; unfold serve_prologue; cbn [app addressed];
    rewrite ?Z.eqb_refl; try reflexivity.
  cbn [andb]. apply Hbody. reflexivity.
Qed.

(** ** A regular file, in every run *)

(** [serve] on a GET that names a regular file: the receive, the open,
    the header awaited, the body transfer, the close. *)
Lemma serve_regular_file (env : environment) (clientfd : Z) (s : state)
    (file : string) (st : stat) :
  substring 0 3 (request env) = "GET" ->
  request_file (request env) = Done file ->
  0 <= openat env (opened file) O_RDONLY ->
  fstat env (openat env (opened file) O_RDONLY) = Some st ->
  S_ISREG (st_mode st) = true ->
  exists mime head,
    outcome_of (serve env clientfd s)
    = outcome_of (send_body env (openat env (opened file) O_RDONLY) clientfd
                            (st_size st) (advance 1 (advance 1 s)))
    /\ trace_of (serve env clientfd s)
       = (head
          ++ Submit (S (sq_tail s))
               (Sendmsg clientfd (to_iov (http_200_hdr mime (st_size st)))
                        (Z.lor MSG_NOSIGNAL MSG_MORE) 0)
          :: Complete (S (sq_tail s)) (cqe_res env (S (sq_tail s)))
          :: trace_of (send_body env (openat env (opened file) O_RDONLY) clientfd
                                 (st_size st) (advance 1 (advance 1 s)))
          ++ [Close (openat env (opened file) O_RDONLY)])%list
    /\ reads head = [] /\ sends head = [] /\ send_flags head = [].
Proof.
  intros Hget Hfile Hfd Hstat Hreg.
  destruct (contentType_total env (resolved file)) as [mime Hmime].
  exists mime,
    (serve_prologue env clientfd s
     ++ [Print ("received request " ++ file ++ " with sockfd " ++ fmt_int clientfd ++ NL);
         Openat (opened file) O_RDONLY (openat env (opened file) O_RDONLY)])%list.
  rewrite (serve_get env clientfd s file (compare_GET_true _ Hget) Hfile).
  rewrite (http_send_file_found env file clientfd _ st mime Hfd Hstat Hreg Hmime).
  destruct (send_body env _ clientfd (st_size st) _) as [[o s'] t].
  unfold outcome_of, trace_of. cbn [fst snd].
  split; [reflexivity |]. split; [| repeat split].
  rewrite <- app_assoc. reflexivity.
Qed.



(** X7: for every GET request that names a regular file of [S >= 0]
    bytes, whatever the completions report: what is read from the file is
    an initial part of the windows of the file, in their order, and the
    body sends are of the same lengths, so nothing is retried, skipped or
    sent twice; if [serve] returns normally all the windows have been
    read and sent; and [serve] raises only if some completion reported an
    error. *)
Theorem transfer_is_initial_part_of_windows (env : environment) (clientfd : Z)
    (s : state) (file : string) (st : stat) :
  substring 0 3 (request env) = "GET" ->
  request_file (request env) = Done file ->
  0 <= openat env (opened file) O_RDONLY ->
  fstat env (openat env (opened file) O_RDONLY) = Some st ->
  S_ISREG (st_mode st) = true ->
  0 <= st_size st ->
  exists k,
    reads (trace_of (serve env clientfd s)) = firstn k (windows (st_size st))
    /\ body_sends (trace_of (serve env clientfd s))
       = map snd (firstn k (windows (st_size st)))
    /\ ((outcome_of (serve env clientfd s) = Done tt
         /\ k = List.length (windows (st_size st)))
        \/ ((exists e, outcome_of (serve env clientfd s) = Thrown e)
            /\ exists id, cqe_res env id < 0)).
Proof.
  intros Hget Hfile Hfd Hstat Hreg Hsize.
  destruct (serve_regular_file env clientfd s file st Hget Hfile Hfd Hstat Hreg)
    as (mime & head & Ho & Ht & Hr0 & Hs0 & _).
  destruct (send_body_run env (openat env (opened file) O_RDONLY) clientfd
              (st_size st) (advance 1 (advance 1 s)) Hsize)
    as (k & Hr & Hsd & _ & Hout).
  exists k. rewrite Ho, Ht. unfold body_sends.
  rewrite reads_app, sends_app, Hr0, Hs0. cbn [app reads sends].
  rewrite reads_app, sends_app, Hr, Hsd. cbn [reads sends flat_map to_iov iov_base snd].
  rewrite !app_nil_r. cbn [app]. rewrite filebuf_send_lengths.
  split; [reflexivity |]. split; [reflexivity |].
  destruct Hout as [Hdone | [Hthrown [id [_ Hbad]]]].
  - left. exact Hdone.
  - right. split; [exact Hthrown | exists id; exact Hbad].
Qed.

(** A file of 3000 bytes whose first read fails: one window was read, of
    the three there are. *)
Lemma transfer_is_initial_part_of_windows_witness :
  exists k,
    reads (trace_of (serve (demo_env_with_result "GET /index.html HTTP/1.1" 3000 2 (-5))
                           4 idle))
    = firstn k (windows 3000).
Proof.
  destruct (transfer_is_initial_part_of_windows
              (demo_env_with_result "GET /index.html HTTP/1.1" 3000 2 (-5)) 4 idle
              "./index.html" {| st_mode := 33188; st_size := 3000 |})
    as (k & Hr & _); try reflexivity; try (simpl; lia).
  exists k. exact Hr.
Defined.

(** X4: for every GET request that names a regular file, the header is
    sent with [MSG_MORE], and so is every body window but the last of the
    file, which is sent without it; when the transfer stops early the last
    send made still carries [MSG_MORE].  For an empty file the header,
    flagged [MSG_MORE], is the only send. *)
Theorem more_flag_on_all_but_last_window (env : environment) (clientfd : Z)
    (s : state) (file : string) (st : stat) :
  substring 0 3 (request env) = "GET" ->
  request_file (request env) = Done file ->
  0 <= openat env (opened file) O_RDONLY ->
  fstat env (openat env (opened file) O_RDONLY) = Some st ->
  S_ISREG (st_mode st) = true ->
  0 <= st_size st ->
  (exists k,
      send_flags (trace_of (serve env clientfd s))
      = Z.lor MSG_NOSIGNAL MSG_MORE :: firstn k (window_flags (st_size st)))
  /\ (outcome_of (serve env clientfd s) = Done tt ->
      send_flags (trace_of (serve env clientfd s))
      = Z.lor MSG_NOSIGNAL MSG_MORE :: window_flags (st_size st))
  /\ (st_size st = 0 ->
      send_flags (trace_of (serve env clientfd s)) = [Z.lor MSG_NOSIGNAL MSG_MORE]).
Proof.
  intros Hget Hfile Hfd Hstat Hreg Hsize.
  destruct (serve_regular_file env clientfd s file st Hget Hfile Hfd Hstat Hreg)
    as (mime & head & Ho & Ht & _ & _ & Hf0).
  destruct (send_body_run env (openat env (opened file) O_RDONLY) clientfd
              (st_size st) (advance 1 (advance 1 s)) Hsize)
    as (k & _ & _ & Hfl & Hout).
  assert (Hflags : send_flags (trace_of (serve env clientfd s))
                   = Z.lor MSG_NOSIGNAL MSG_MORE :: firstn k (window_flags (st_size st))).
  { rewrite Ht, send_flags_app, Hf0. cbn [app send_flags].
    rewrite send_flags_app, Hfl. cbn [send_flags]. rewrite app_nil_r. reflexivity. }
  split; [exists k; exact Hflags |]. split.
  - intros Hdone. rewrite Hflags. f_equal.
    rewrite Ho in Hdone.
    destruct Hout as [[_ Hk] | [[e He] _]]; [| congruence].
    apply firstn_all2. subst k. unfold window_flags.
    destruct (List.length (windows (st_size st))) as [| n]; [simpl; lia |].
    rewrite length_app, repeat_length. simpl. lia.
  - intros H0. rewrite Hflags, H0, window_flags_empty. destruct k; reflexivity.
Qed.

Lemma more_flag_on_all_but_last_window_witness :
  send_flags (trace_of (serve (demo_env "GET /index.html HTTP/1.1" 3000 0) 4 idle))
  = [Z.lor MSG_NOSIGNAL MSG_MORE; Z.lor MSG_NOSIGNAL MSG_MORE;
     Z.lor MSG_NOSIGNAL MSG_MORE; MSG_NOSIGNAL].
Proof.
  apply (proj1 (proj2 (more_flag_on_all_but_last_window
                         (demo_env "GET /index.html HTTP/1.1" 3000 0) 4 idle
                         "./index.html" {| st_mode := 33188; st_size := 3000 |}
                         eq_refl eq_refl ltac:(simpl; lia) eq_refl eq_refl
                         ltac:(simpl; lia)))).
  reflexivity.
Defined.

(** X8: the result of the header send is not looked at.  For every GET
    request that names a regular file of [S >= 0] bytes, if no operation
    after the header send reports an error, the whole file is read and
    sent and [serve] returns normally, whatever the header send itself
    reported. *)
Theorem header_send_result_is_ignored (env : environment) (clientfd : Z)
    (s : state) (file : string) (st : stat) :
  substring 0 3 (request env) = "GET" ->
  request_file (request env) = Done file ->
  0 <= openat env (opened file) O_RDONLY ->
  fstat env (openat env (opened file) O_RDONLY) = Some st ->
  S_ISREG (st_mode st) = true ->
  0 <= st_size st ->
  (forall id, (S (sq_tail s) < id)%nat -> 0 <= cqe_res env id) ->
  outcome_of (serve env clientfd s) = Done tt
  /\ reads (trace_of (serve env clientfd s)) = windows (st_size st)
  /\ sum_Z (body_sends (trace_of (serve env clientfd s))) = st_size st.
Proof.
  intros Hget Hfile Hfd Hstat Hreg Hsize Hok.
  destruct (serve_regular_file env clientfd s file st Hget Hfile Hfd Hstat Hreg)
    as (mime & head & Ho & Ht & Hr0 & Hs0 & _).
  destruct (send_body_run env (openat env (opened file) O_RDONLY) clientfd
              (st_size st) (advance 1 (advance 1 s)) Hsize)
    as (k & Hr & Hsd & _ & Hout).
  destruct Hout as [[Hdone Hk] | [_ [id [Hid Hbad]]]].
  2: { exfalso. unfold advance in Hid. cbn [sq_tail Nat.add] in Hid.
       specialize (Hok id ltac:(lia)). lia. }
  rewrite Ho, Ht. unfold body_sends.
  rewrite reads_app, sends_app, Hr0, Hs0. cbn [app reads sends].
  rewrite reads_app, sends_app, Hr, Hsd. cbn [reads sends flat_map to_iov iov_base snd].
  rewrite !app_nil_r. cbn [app]. rewrite filebuf_send_lengths.
  subst k. rewrite firstn_all.
  split; [exact Hdone |]. split; [reflexivity | apply windows_cover; exact Hsize].
Qed.

(** The header send reports [EPIPE]; the 2000 bytes are sent all the same. *)
Lemma header_send_result_is_ignored_witness :
  reads (trace_of (serve (demo_env_with_result "GET /index.html HTTP/1.1" 2000 1 (-32))
                         4 idle))
  = windows 2000.
Proof.
  apply (header_send_result_is_ignored
           (demo_env_with_result "GET /index.html HTTP/1.1" 2000 1 (-32)) 4 idle
           "./index.html" {| st_mode := 33188; st_size := 2000 |});
    try reflexivity; try (simpl; lia).
  intros id Hid. simpl. destruct (Nat.eqb_spec id 1); [simpl in Hid; lia | lia].
Defined.

(** ** What the parser takes from the request *)

Lemma size_append (s1 s2 : string) : size (s1 ++ s2) = size s1 + size s2.
Proof.
  unfold size. induction s1 as [| c s1 IH]; [reflexivity |].
  simpl String.length. rewrite !Nat2Z.inj_succ. simpl in IH. lia.
Qed.

Lemma size_cons (c : ascii) (s : string) : size (String c s) = 1 + size s.
Proof. unfold size. simpl String.length. lia. Qed.

Lemma substring_whole_prefix (s1 s2 : string) :
  substring 0 (String.length s1) (s1 ++ s2) = s1.
Proof.
  induction s1 as [| c s1 IH]; [destruct s2; reflexivity |].
  simpl. rewrite IH. reflexivity.
Qed.

Lemma substring_after_prefix (s1 s2 : string) (m : nat) :
  substring (String.length s1) m (s1 ++ s2) = substring 0 m s2.
Proof.
  induction s1 as [| c s1 IH]; [reflexivity |]. simpl. exact IH.
Qed.

Lemma substring_all (s : string) : substring 0 (String.length s) s = s.
Proof.
  induction s as [| c s IH]; [reflexivity |]. simpl. rewrite IH. reflexivity.
Qed.

(** Searching from the start of a text that holds no [c] before a [c]. *)
Lemma find_from_first (c : ascii) (path rest : string) (idx : Z) :
  contains c path = false ->
  find_from c (path ++ String c rest) O idx = idx + size path.
Proof.
  revert idx. induction path as [| a path IH]; intros idx Hno.
  - simpl. rewrite Ascii.eqb_refl. unfold size. simpl. lia.
  - simpl in Hno. apply Bool.orb_false_iff in Hno. destruct Hno as [Ha Hno].
    simpl. rewrite Ha, (IH (idx + 1) Hno). unfold size. simpl String.length. lia.
Qed.

(** The path of a request line: what stands between position 4 and the
    next space. *)
Lemma request_file_of_line (c : ascii) (path rest : string) :
  size ("GET" ++ String c (path ++ " " ++ rest)) < size_t_mod ->
  contains " " path = false ->
  request_file ("GET" ++ String c (path ++ " " ++ rest)) = Done ("." ++ path).
Proof.
  intros Hsize Hno. unfold request_file, find.
  change (Z.to_nat 4) with 4%nat.
  cbn [append find_from].
  change (path ++ String " " rest) with (path ++ " " ++ rest) in *.
  rewrite (find_from_first " " path rest _ Hno).
  pose proof (size_nonneg path) as Hp. pose proof (size_nonneg rest) as Hr.
  assert (Hlen : size (String "G" (String "E" (String "T" (String c (path ++ " " ++ rest)))))
                 = 4 + (size path + (1 + size rest))).
  { change (" " ++ rest) with (String " " rest).
    rewrite !size_cons, size_append, size_cons. lia. }
  assert (Hsize' : 4 + (size path + (1 + size rest)) < size_t_mod)
    by (rewrite <- Hlen; exact Hsize).
  rewrite to_size_t_small by (unfold size_t_mod in *; lia).
  rewrite substr_in_range by (rewrite Hlen; lia).
  rewrite Hlen.
  replace (Z.to_nat (Z.min (0 + 1 + 1 + 1 + 1 + size path - 4)
                           (4 + (size path + (1 + size rest)) - 4)))
    with (String.length path) by (unfold size in *; lia).
  change (Z.to_nat 4) with 4%nat. cbn [substring].
  rewrite substring_whole_prefix. reflexivity.
Qed.

Lemma c_str_without_NUL (s : string) : contains NUL s = false -> c_str s = s.
Proof.
  induction s as [| c s IH]; intros Hno; [reflexivity |].
  simpl in Hno. apply Bool.orb_false_iff in Hno. destruct Hno as [Hc Hno].
  simpl. rewrite Hc, (IH Hno). reflexivity.
Qed.

(** X5: when the bytes received are GET, one more byte, a target with no
    space in it, a space and anything more, the name extracted is a dot
    followed by the target, unchanged (nothing is decoded, normalised or
    rejected, [..] and query strings included), and the one file [serve]
    opens is what [openat] reads of that name, or of [./index.html] when
    the target is [/]: the name up to its first NUL byte, so the whole
    name when the target holds no NUL. *)
Theorem request_target_is_what_is_opened (env : environment) (clientfd : Z)
    (s : state) (c : ascii) (path rest : string) :
  request env = "GET" ++ String c (path ++ " " ++ rest) ->
  contains " " path = false ->
  request_file (request env) = Done ("." ++ path)
  /\ opens (trace_of (serve env clientfd s))
     = [c_str (if String.eqb path "/" then "./index.html" else "." ++ path)]
  /\ (contains NUL path = false ->
      opens (trace_of (serve env clientfd s))
      = [if String.eqb path "/" then "./index.html" else "." ++ path]).
Proof.
  intros Hreq Hno.
  assert (Hfile : request_file (request env) = Done ("." ++ path)).
  { rewrite Hreq. apply request_file_of_line; [| exact Hno].
    rewrite <- Hreq. pose proof (request_size env). lia. }
  split; [exact Hfile |].
  assert (Hget : substring 0 3 (request env) = "GET") by (rewrite Hreq; reflexivity).
  assert (Hopens : opens (trace_of (serve env clientfd s))
                   = [c_str (if String.eqb path "/" then "./index.html" else "." ++ path)]).
  { rewrite (serve_get env clientfd s _ (compare_GET_true _ Hget) Hfile).
    destruct (http_send_file_fd_events env ("." ++ path) clientfd (advance 1 s))
      as [body [Ht Hbody]].
    destruct (http_send_file env ("." ++ path) clientfd (advance 1 s)) as [[o s'] t].
    unfold trace_of in *. cbn [fst snd] in *. subst t.
    rewrite opens_app. unfold serve_prologue. cbn [opens app].
    rewrite opens_app, (no_fd_events_opens body Hbody). reflexivity. }
  split; [exact Hopens |].
  intros Hnul. rewrite Hopens. f_equal.
  destruct (String.eqb path "/"); [reflexivity |].
  apply c_str_without_NUL. simpl. exact Hnul.
Qed.

(** A target that climbs out of the directory is opened as it stands; a
    target with a NUL byte in it is opened up to that byte. *)
Lemma request_target_is_what_is_opened_witness :
  opens (trace_of (serve (demo_env "GET /../etc/passwd?x=1 HTTP/1.1" 2000 0) 4 idle))
  = ["./../etc/passwd?x=1"]
  /\ opens (trace_of (serve (demo_env ("GET /index.html" ++ String NUL "x HTTP/1.1")
                                      2000 0) 4 idle))
     = ["./index.html"].
Proof.
  split.
  - apply (request_target_is_what_is_opened
             (demo_env "GET /../etc/passwd?x=1 HTTP/1.1" 2000 0) 4 idle
             " " "/../etc/passwd?x=1" "HTTP/1.1");
      reflexivity.
  - apply (request_target_is_what_is_opened
             (demo_env ("GET /index.html" ++ String NUL "x HTTP/1.1") 2000 0) 4 idle
             " " ("/index.html" ++ String NUL "x") "HTTP/1.1");
      reflexivity.
Defined.

(** The view [serve] takes of a request of at least four bytes. *)
Lemma request_of_four (env : environment) (a b c d : ascii) (rest : string) :
  request (with_received env (String a (String b (String c (String d rest)))))
  = String a (String b (String c (String d
      (substring 0 (Z.to_nat (Z.min (size rest) (BUF_SIZE - 4))) rest)))).
Proof.
  unfold request. cbn [received recv_res with_received]. rewrite !size_cons.
  pose proof (size_nonneg rest) as Hr.
  rewrite to_size_t_small by (unfold size_t_mod, BUF_SIZE; lia).
  replace (Z.to_nat (Z.min (1 + (1 + (1 + (1 + size rest)))) BUF_SIZE))
    with (S (S (S (S (Z.to_nat (Z.min (size rest) (BUF_SIZE - 4)))))))
    by (unfold BUF_SIZE; lia).
  reflexivity.
Qed.

(** The path extraction starts at position 4: it does not look at the
    byte at position 3. *)
Lemma request_file_skips_position_3 (a b c d d' : ascii) (x : string) :
  request_file (String a (String b (String c (String d x))))
  = request_file (String a (String b (String c (String d' x)))).
Proof.
  unfold request_file, find, substr. rewrite !size_cons.
  change (Z.to_nat 4) with 4%nat. reflexivity.
Qed.

(** X6: the byte that follows GET is never looked at.  Two requests that
    start with GET and differ only in their fourth byte make [serve] do
    exactly the same, event for event: with a letter, a slash or a line
    end there instead of the space, the request is served as a GET for
    what stands from position 4 on. *)
Theorem fourth_byte_is_never_inspected (env : environment) (clientfd : Z)
    (s : state) (c1 c2 : ascii) (rest : string) :
  serve (with_received env ("GET" ++ String c1 rest)) clientfd s
  = serve (with_received env ("GET" ++ String c2 rest)) clientfd s.
Proof.
  cbn [append].
  set (env1 := with_received env (String "G" (String "E" (String "T" (String c1 rest))))).
  set (env2 := with_received env (String "G" (String "E" (String "T" (String c2 rest))))).
  assert (Hr1 : request env1 = String "G" (String "E" (String "T" (String c1
                  (substring 0 (Z.to_nat (Z.min (size rest) (BUF_SIZE - 4))) rest)))))
    by apply request_of_four.
  assert (Hr2 : request env2 = String "G" (String "E" (String "T" (String c2
                  (substring 0 (Z.to_nat (Z.min (size rest) (BUF_SIZE - 4))) rest)))))
    by apply request_of_four.
  assert (Hget1 : compare_eq (request env1) 0 3 "GET" = Done true)
    by (apply compare_GET_true; rewrite Hr1; reflexivity).
  assert (Hget2 : compare_eq (request env2) 0 3 "GET" = Done true)
    by (apply compare_GET_true; rewrite Hr2; reflexivity).
  assert (Hsame : request_file (request env1) = request_file (request env2))
    by (rewrite Hr1, Hr2; apply request_file_skips_position_3).
  assert (Hpro : serve_prologue env1 clientfd s = serve_prologue env2 clientfd s).
  { unfold serve_prologue, env1, env2. cbn [recv_res with_received].
    rewrite !size_cons. reflexivity. }
  destruct (request_file (request env2)) as [file | e] eqn:Hfile.
  - rewrite (serve_get env1 clientfd s file Hget1 Hsame).
    rewrite (serve_get env2 clientfd s file Hget2 Hfile).
    unfold env1 at 1, env2 at 1. rewrite !http_send_file_with_received, Hpro.
    reflexivity.
  - rewrite (serve_throws env1 clientfd s e Hget1 Hsame).
    rewrite (serve_throws env2 clientfd s e Hget2 Hfile).
    rewrite Hpro. reflexivity.
Qed.

(** ** The content type *)

Lemma find_last_from_app (c : ascii) (s1 s2 : string) (idx last : Z) :
  find_last_from c (s1 ++ s2) idx last
  = find_last_from c s2 (idx + size s1) (find_last_from c s1 idx last).
Proof.
  revert idx last. induction s1 as [| a s1 IH]; intros idx last.
  - simpl. unfold size. simpl. rewrite Z.add_0_r. reflexivity.
  - cbn [append find_last_from]. rewrite IH, size_cons. f_equal. lia.
Qed.

Lemma find_last_from_absent (c : ascii) (s : string) (idx last : Z) :
  contains c s = false -> find_last_from c s idx last = last.
Proof.
  revert idx last. induction s as [| a s IH]; intros idx last Hno; [reflexivity |].
  simpl in Hno. apply Bool.orb_false_iff in Hno. destruct Hno as [Ha Hno].
  simpl. rewrite Ha. apply IH. exact Hno.
Qed.

(** X1: the content type is looked up under what follows the last dot of
    the whole file name, directory part included, and is
    [application/octet-stream] when the table has no entry for it.  So a
    name with no dot after its leading [./] is looked up under its whole
    path with the slash, and a dot in a directory name counts. *)
Theorem content_type_by_text_after_last_dot (env : environment) (stem ext : string) :
  size (stem ++ "." ++ ext) < size_t_mod ->
  contains "." ext = false ->
  contentType env (stem ++ "." ++ ext)
  = Done (match MimeDicts env ext with
          | Some mime => mime
          | None => "application/octet-stream"
          end).
Proof.
  intros Hsize Hno. unfold contentType, find_last_of.
  change ("." ++ ext) with (String "." ext) in *.
  rewrite size_append, size_cons in Hsize.
  pose proof (size_nonneg stem) as Hs. pose proof (size_nonneg ext) as He.
  rewrite find_last_from_app. cbn [find_last_from]. rewrite Ascii.eqb_refl.
  rewrite (find_last_from_absent "." ext _ _ Hno).
  rewrite to_size_t_small by (unfold size_t_mod in *; lia).
  rewrite substr_in_range by (rewrite size_append, size_cons; lia).
  rewrite size_append, size_cons.
  replace (Z.to_nat (0 + size stem + 1)) with (String.length stem + 1)%nat
    by (unfold size; lia).
  replace (Z.to_nat (Z.min npos (size stem + (1 + size ext) - (0 + size stem + 1))))
    with (String.length ext) by (unfold size, npos, size_t_mod in *; lia).
  replace (String.length stem + 1)%nat with (String.length (stem ++ ".")).
  2: { clear. induction stem as [| a stem IH]; [reflexivity |]. simpl. rewrite IH.
       reflexivity. }
  replace (stem ++ String "." ext) with ((stem ++ ".") ++ ext).
  2: { clear. induction stem as [| a stem IH]; [reflexivity |]. simpl. rewrite IH.
       reflexivity. }
  rewrite substring_after_prefix, substring_all.
  destruct (MimeDicts env ext); reflexivity.
Qed.

Lemma content_type_by_text_after_last_dot_witness :
  contentType (demo_env "" 0 0) "./site.v2/index.html" = Done "text/html"
  /\ contentType (demo_env "" 0 0) "./README" = Done "application/octet-stream".
Proof.
  split.
  - apply (content_type_by_text_after_last_dot (demo_env "" 0 0) "./site.v2/index" "html");
      [vm_compute; reflexivity | reflexivity].
  - apply (content_type_by_text_after_last_dot (demo_env "" 0 0) "" "/README");
      [vm_compute; reflexivity | reflexivity].
Defined.

(** ** The acceptor *)

(** X9: the acceptor spawns a handler for every accept result up to the
    first zero, negative results (accept errors) included, each with that
    result as its descriptor; it returns at the first zero and spawns
    nothing for what comes after; with no zero among the results it never
    returns and waits for a further accept. *)
Theorem acceptor_stops_only_at_zero (accepted rest : list Z) :
  Forall (fun clientfd => clientfd <> 0) accepted ->
  accept_connection (accepted ++ 0 :: rest) = (accepted, Returned)
  /\ accept_connection accepted = (accepted, Awaiting).
Proof.
  induction 1 as [| clientfd accepted Hfd _ [IH1 IH2]]; [split; reflexivity |].
  cbn [app accept_connection].
  destruct (Z.eqb_spec clientfd 0) as [H0 | _]; [contradiction |].
  rewrite IH1, IH2. split; reflexivity.
Qed.

(** Two connections, then an accept error, then a zero. *)
Lemma acceptor_stops_only_at_zero_witness :
  accept_connection [7; 8; -24; 0; 9] = ([7; 8; -24], Returned).
Proof.
  apply (acceptor_stops_only_at_zero [7; 8; -24] [9]).
  repeat constructor; lia.
Defined.

(** ** What of the request matters *)

(** X11: of a GET request only the target matters.  Two requests with the
    same target, whatever stands after the space that ends it (version,
    header lines, a body) and whatever their fourth byte, are answered
    alike in every state of the file system and of the service: the same
    file opened, the same sends with the same bytes, the same reads, the
    same outcome. *)
Theorem only_the_target_matters (env : environment) (req1 req2 : string)
    (clientfd : Z) (s : state) (c1 c2 : ascii) (path rest1 rest2 : string) :
  request (with_received env req1) = "GET" ++ String c1 (path ++ " " ++ rest1) ->
  request (with_received env req2) = "GET" ++ String c2 (path ++ " " ++ rest2) ->
  contains " " path = false ->
  outcome_of (serve (with_received env req1) clientfd s)
  = outcome_of (serve (with_received env req2) clientfd s)
  /\ sends (trace_of (serve (with_received env req1) clientfd s))
     = sends (trace_of (serve (with_received env req2) clientfd s))
  /\ reads (trace_of (serve (with_received env req1) clientfd s))
     = reads (trace_of (serve (with_received env req2) clientfd s))
  /\ opens (trace_of (serve (with_received env req1) clientfd s))
     = opens (trace_of (serve (with_received env req2) clientfd s)).
Proof.
  intros Hreq1 Hreq2 Hno.
  assert (Hfile1 : request_file (request (with_received env req1)) = Done ("." ++ path)).
  { rewrite Hreq1. apply request_file_of_line; [| exact Hno].
    rewrite <- Hreq1. pose proof (request_size (with_received env req1)).
    unfold size_t_mod, BUF_SIZE in *. lia. }
  assert (Hfile2 : request_file (request (with_received env req2)) = Done ("." ++ path)).
  { rewrite Hreq2. apply request_file_of_line; [| exact Hno].
    rewrite <- Hreq2. pose proof (request_size (with_received env req2)).
    unfold size_t_mod, BUF_SIZE in *. lia. }
  assert (Hget1 : substring 0 3 (request (with_received env req1)) = "GET")
    by (rewrite Hreq1; reflexivity).
  assert (Hget2 : substring 0 3 (request (with_received env req2)) = "GET")
    by (rewrite Hreq2; reflexivity).
  rewrite (serve_get _ clientfd s _ (compare_GET_true _ Hget1) Hfile1).
  rewrite (serve_get _ clientfd s _ (compare_GET_true _ Hget2) Hfile2).
  rewrite !http_send_file_with_received.
  destruct (http_send_file env ("." ++ path) clientfd (advance 1 s)) as [[o s'] t].
  unfold outcome_of, trace_of. cbn [fst snd].
  rewrite !sends_app, !reads_app, !opens_app. repeat split.
Qed.

Lemma only_the_target_matters_witness :
  sends (trace_of (serve (with_received (demo_env "" 2000 0)
                                        "GET /index.html HTTP/1.1") 4 idle))
  = sends (trace_of (serve (with_received (demo_env "" 2000 0)
                                          "GET /index.html HTTP/1.0 Range: bytes=0-9")
                           4 idle)).
Proof.
  apply (only_the_target_matters (demo_env "" 2000 0)
           "GET /index.html HTTP/1.1" "GET /index.html HTTP/1.0 Range: bytes=0-9"
           4 idle " " " " "/index.html" "HTTP/1.1" "HTTP/1.0 Range: bytes=0-9");
    reflexivity.
Defined.
